(** * The perception loop of the hand-gesture firmware (app_main.cpp)

    A shallow embedding of [crop_resize_224], [init_camera] and [app_main],
    and the properties of the buffer handling, the centre crop and the
    pipeline loop.

    The program talks to collaborators whose code is not part of the
    sources: the camera driver, the JPEG decoder, the heap, the two models,
    the scheduler and the log.  They are an environment [Env] of oracles;
    every call is recorded in a trace, and every theorem holds for all
    environments. *)

From Stdlib Require Import ZArith Lia List Strings.Byte Strings.String.
From stdpp Require Import base option list gmap.

Local Open Scope Z_scope.

(** ** [int]: 32 bits, two's complement *)

Module Int.

Definition INT_MIN : Z := - 2 ^ 31.
Definition INT_MAX : Z := 2 ^ 31 - 1.

(** the representative of [z] in [INT_MIN .. INT_MAX] *)
Definition wrap (z : Z) : Z := (z + 2 ^ 31) mod 2 ^ 32 - 2 ^ 31.

Definition in_range (z : Z) : Prop := INT_MIN <= z <= INT_MAX.

Definition add (a b : Z) : Z := wrap (a + b).
Definition sub (a b : Z) : Z := wrap (a - b).
Definition mul (a b : Z) : Z := wrap (a * b).
(** [/] of C++ rounds towards zero *)
Definition div (a b : Z) : Z := wrap (Z.quot a b).

End Int.

Notation "a +i b" := (Int.add a b) (at level 50, left associativity).
Notation "a -i b" := (Int.sub a b) (at level 50, left associativity).
Notation "a *i b" := (Int.mul a b) (at level 40, left associativity).
Notation "a /i b" := (Int.div a b) (at level 40, left associativity).

(** ** Data *)

(** A data pointer names a heap block; [NULL] names none. *)
Abbreviation ptr := N (only parsing).
Definition NULL : ptr := 0%N.
Definition is_null (p : ptr) : bool := N.eqb p NULL.

(** dl::image::pix_type_t (dl_image); the program only names RGB888. *)
Inductive pix_type_t : Type :=
| DL_IMAGE_PIX_TYPE_RGB888
| DL_IMAGE_PIX_TYPE_RGB565
| DL_IMAGE_PIX_TYPE_GRAY.

(** dl::image::img_t *)
Record img_t : Type := mk_img {
  data : ptr;
  width : Z;
  height : Z;
  pix_type : pix_type_t
}.

Definition set_data (img : img_t) (p : ptr) : img_t :=
  {| data := p; width := width img; height := height img;
     pix_type := pix_type img |}.

(** dl::image::jpeg_img_t, as the loop fills it: the compressed bytes and
    their count. *)
Record jpeg_img_t : Type := mk_jpeg {
  jpeg_data : list byte;
  jpeg_data_len : Z
}.

(** What a [camera_fb_t *] points to: the driver's buffer [buf] and [len]. *)
Record camera_fb_t : Type := mk_fb {
  buf : list byte;
  len : Z
}.

(** One element of the list [HandDetect::run] returns.  The loop asks only
    whether the list is empty and hands it on. *)
Inductive detect_result_t : Type := Detection (id : Z).

(** One element of what [HandGestureRecognizer::recognize] returns; [score]
    is a float that is only printed, kept as its bit pattern. *)
Record result_t : Type := mk_result {
  cat_name : string;
  score : Z
}.

(** esp_heap_caps.h *)
Definition MALLOC_CAP_8BIT : Z := Z.shiftl 1 2.
Definition MALLOC_CAP_SPIRAM : Z := Z.shiftl 1 10.

Definition ESP_OK : Z := 0.

Definition TAG : string := "hand_gesture_realtime".

(** camera_pins.h, the wiring of the board *)
Record camera_pins_t : Type := mk_pins {
  Y2_GPIO_NUM : Z; Y3_GPIO_NUM : Z; Y4_GPIO_NUM : Z; Y5_GPIO_NUM : Z;
  Y6_GPIO_NUM : Z; Y7_GPIO_NUM : Z; Y8_GPIO_NUM : Z; Y9_GPIO_NUM : Z;
  XCLK_GPIO_NUM : Z; PCLK_GPIO_NUM : Z; VSYNC_GPIO_NUM : Z; HREF_GPIO_NUM : Z;
  SIOD_GPIO_NUM : Z; SIOC_GPIO_NUM : Z; PWDN_GPIO_NUM : Z; RESET_GPIO_NUM : Z
}.

Inductive pixformat_t : Type := PIXFORMAT_JPEG | PIXFORMAT_RGB565.
Inductive framesize_t : Type := FRAMESIZE_240X240 | FRAMESIZE_QVGA.
Inductive ledc_channel_t : Type := LEDC_CHANNEL_0.
Inductive ledc_timer_t : Type := LEDC_TIMER_0.

(** camera_config_t, the fields [init_camera] sets *)
Record camera_config_t : Type := mk_config {
  ledc_channel : ledc_channel_t;
  ledc_timer : ledc_timer_t;
  pin_d0 : Z; pin_d1 : Z; pin_d2 : Z; pin_d3 : Z;
  pin_d4 : Z; pin_d5 : Z; pin_d6 : Z; pin_d7 : Z;
  pin_xclk : Z; pin_pclk : Z; pin_vsync : Z; pin_href : Z;
  pin_sccb_sda : Z; pin_sccb_scl : Z; pin_pwdn : Z; pin_reset : Z;
  xclk_freq_hz : Z;
  pixel_format : pixformat_t;
  frame_size : framesize_t;
  jpeg_quality : Z;
  fb_count : Z
}.

Inductive HandGestureCls : Type := MOBILENETV2_0_5_S8_V1.

(** ** Calls that leave the program *)

Inductive log_level : Type := LOG_ERROR | LOG_WARN | LOG_INFO.

Inductive log_arg : Type :=
| ArgInt (z : Z)
| ArgStr (s : string)
| ArgFloat (bits : Z).

Inductive event : Type :=
| EvCameraInit (config : camera_config_t) (r : Z)
| EvFbGet (r : option camera_fb_t)
| EvFbReturn (fb : camera_fb_t)
| EvDecode (jpeg : jpeg_img_t) (pt : pix_type_t) (r : img_t)
| EvMalloc (size caps : Z) (r : ptr)
| EvFree (p : ptr)
| EvNewHandDetect
| EvNewHandGestureRecognizer (model : HandGestureCls)
| EvDetect (img : img_t) (r : list detect_result_t)
| EvRecognize (img : img_t) (dets : list detect_result_t) (r : list result_t)
| EvDelay (ms : Z)
| EvLog (level : log_level) (tag fmt : string) (args : list log_arg).

(** The state the program runs in: the live heap blocks with their bytes,
    and the calls made so far, oldest first. *)
Record World : Type := mk_world {
  heap : gmap N (list byte);
  trace : list event
}.

(** What the decoder hands back before it is put on the heap: the
    dimensions and, unless the data pointer is null, the pixels. *)
Record decoded_t : Type := mk_decoded {
  dec_width : Z;
  dec_height : Z;
  dec_pixels : option (list byte)
}.

(** The answers of the collaborators; each may depend on everything that
    happened before. *)
Record Env : Type := mk_env {
  pins : camera_pins_t;
  camera_init_answer : World -> camera_config_t -> Z;
  frame_answer : World -> option camera_fb_t;
  decode_answer : World -> jpeg_img_t -> pix_type_t -> decoded_t;
  (** [None]: no block of that size with those capabilities; [Some f]: a
      block whose bytes before the first store are [f 0], [f 1], ... *)
  malloc_answer : World -> Z -> Z -> option (nat -> byte);
  detect_answer : World -> img_t -> list detect_result_t;
  recognize_answer :
    World -> img_t -> list detect_result_t -> list result_t
}.

(** ** The monad of the program *)

Inductive stop : Type :=
| UB       (** undefined behaviour: an access outside a block, a free of a
               block that is not live *)
| Abort.   (** [abort()] *)

Inductive outcome (A : Type) : Type :=
| Done (a : A)
| Stop (s : stop).
Arguments Done {A} a.
Arguments Stop {A} s.

Definition M (A : Type) : Type := World -> outcome A * World.

#[global] Instance M_ret : MRet M := fun A a w => (Done a, w).
#[global] Instance M_bind : MBind M := fun A B f m w =>
  match m w with
  | (Done a, w') => f a w'
  | (Stop s, w') => (Stop s, w')
  end.

Definition stop_with {A} (s : stop) : M A := fun w => (Stop s, w).

Definition emit (e : event) : M unit := fun w =>
  (Done tt, {| heap := heap w; trace := trace w ++ [e] |}).

(** The events of a run that started in [w] and ended in [w']. *)
Definition new_events (w w' : World) : list event :=
  drop (length (trace w)) (trace w').

Definition run {A} (m : M A) (w : World) : outcome A := fst (m w).
Definition after {A} (m : M A) (w : World) : World := snd (m w).

(** ** The collaborators, as the program calls them *)

Section Program.

Variable env : Env.

(** The address of a new block: not [NULL], not a live block. *)
Definition fresh_ptr (h : gmap N (list byte)) : ptr :=
  fresh ({[NULL]} ∪ dom h).

(** The bytes of a block of [size] bytes nobody has stored to yet. *)
Definition block_of (f : nat -> byte) (size : Z) : list byte :=
  f <$> seq 0 (Z.to_nat size).

(** heap_caps_malloc(size, caps) *)
Definition heap_caps_malloc (size caps : Z) : M ptr := fun w =>
  match malloc_answer env w size caps with
  | None =>
      (Done NULL,
       {| heap := heap w; trace := trace w ++ [EvMalloc size caps NULL] |})
  | Some f =>
      let p := fresh_ptr (heap w) in
      (Done p,
       {| heap := <[p := block_of f size]> (heap w);
          trace := trace w ++ [EvMalloc size caps p] |})
  end.

(** heap_caps_free(p) *)
Definition heap_caps_free (p : ptr) : M unit := fun w =>
  if is_null p then (Done tt, w)
  else
    match heap w !! p with
    | Some _ =>
        (Done tt,
         {| heap := delete p (heap w); trace := trace w ++ [EvFree p] |})
    | None => (Stop UB, w)
    end.

(** [((uint8_t * ) p)[i]] read *)
Definition load_u8 (p : ptr) (i : Z) : M byte := fun w =>
  match heap w !! p with
  | Some blk =>
      if 0 <=? i then
        match blk !! Z.to_nat i with
        | Some b => (Done b, w)
        | None => (Stop UB, w)
        end
      else (Stop UB, w)
  | None => (Stop UB, w)
  end.

(** [((uint8_t * ) p)[i] = b] *)
Definition store_u8 (p : ptr) (i : Z) (b : byte) : M unit := fun w =>
  match heap w !! p with
  | Some blk =>
      if (0 <=? i) && (i <? Z.of_nat (length blk)) then
        (Done tt,
         {| heap := <[p := <[Z.to_nat i := b]> blk]> (heap w);
            trace := trace w |})
      else (Stop UB, w)
  | None => (Stop UB, w)
  end.

(** esp_camera_init(&config) *)
Definition esp_camera_init (config : camera_config_t) : M Z := fun w =>
  let r := camera_init_answer env w config in
  (Done r, {| heap := heap w; trace := trace w ++ [EvCameraInit config r] |}).

(** esp_camera_fb_get(): [None] is the null pointer *)
Definition esp_camera_fb_get : M (option camera_fb_t) := fun w =>
  let r := frame_answer env w in
  (Done r, {| heap := heap w; trace := trace w ++ [EvFbGet r] |}).

(** esp_camera_fb_return(fb) *)
Definition esp_camera_fb_return (fb : camera_fb_t) : M unit :=
  emit (EvFbReturn fb).

(** dl::image::sw_decode_jpeg(jpeg, pix_type): the decoder owns the
    allocation of its output. *)
Definition sw_decode_jpeg (jpeg : jpeg_img_t) (pt : pix_type_t) : M img_t :=
  fun w =>
    let d := decode_answer env w jpeg pt in
    match dec_pixels d with
    | None =>
        let r := {| data := NULL; width := dec_width d;
                    height := dec_height d; pix_type := pt |} in
        (Done r, {| heap := heap w; trace := trace w ++ [EvDecode jpeg pt r] |})
    | Some px =>
        let p := fresh_ptr (heap w) in
        let r := {| data := p; width := dec_width d;
                    height := dec_height d; pix_type := pt |} in
        (Done r, {| heap := <[p := px]> (heap w);
                    trace := trace w ++ [EvDecode jpeg pt r] |})
    end.

(** hand_detect->run(img) *)
Definition hand_detect_run (img : img_t) : M (list detect_result_t) := fun w =>
  let r := detect_answer env w img in
  (Done r, {| heap := heap w; trace := trace w ++ [EvDetect img r] |}).

(** gesture->recognize(img, det_results) *)
Definition gesture_recognize (img : img_t) (dets : list detect_result_t)
  : M (list result_t) := fun w =>
  let r := recognize_answer env w img dets in
  (Done r, {| heap := heap w; trace := trace w ++ [EvRecognize img dets r] |}).

(** vTaskDelay(pdMS_TO_TICKS(ms)): the event keeps the milliseconds. *)
Definition vTaskDelay_ms (ms : Z) : M unit := emit (EvDelay ms).

Definition ESP_LOGE (tag fmt : string) (args : list log_arg) : M unit :=
  emit (EvLog LOG_ERROR tag fmt args).
Definition ESP_LOGW (tag fmt : string) (args : list log_arg) : M unit :=
  emit (EvLog LOG_WARN tag fmt args).
Definition ESP_LOGI (tag fmt : string) (args : list log_arg) : M unit :=
  emit (EvLog LOG_INFO tag fmt args).

(** ESP_ERROR_CHECK(x): abort unless [x] is [ESP_OK] *)
Definition ESP_ERROR_CHECK (x : Z) : M unit :=
  if x =? ESP_OK then mret tt else stop_with Abort.

(** [for (int i = lo; i < hi; ++i) body]: the body does not assign [i], so
    the loop runs [hi - lo] times, and [++i] stays below [hi]. *)
Fixpoint for_loop (n : nat) (i : Z) (body : Z -> M unit) : M unit :=
  match n with
  | O => mret tt
  | S n' => body i ;; for_loop n' (i +i 1) body
  end.

Definition for_int (lo hi : Z) (body : Z -> M unit) : M unit :=
  for_loop (Z.to_nat (hi - lo)) lo body.

(** [for (auto &x : xs) body] *)
Fixpoint for_each {A} (xs : list A) (body : A -> M unit) : M unit :=
  match xs with
  | [] => mret tt
  | x :: xs' => body x ;; for_each xs' body
  end.

(** ** crop_resize_224 *)

Definition crop_resize_224 (src : img_t) : M img_t :=
  let target := 224 in
  let crop := if width src <? height src then width src else height src in
  let x0 := (width src -i crop) /i 2 in
  let y0 := (height src -i crop) /i 2 in
  (* dst = {}, then width, height and pix_type are assigned *)
  let dst := {| data := NULL; width := target; height := target;
                pix_type := DL_IMAGE_PIX_TYPE_RGB888 |} in
  p ← heap_caps_malloc (target *i target *i 3)
        (Z.lor MALLOC_CAP_SPIRAM MALLOC_CAP_8BIT) ;
  let dst := set_data dst p in
  dst ← (if is_null (data dst) then
           p ← heap_caps_malloc (target *i target *i 3) MALLOC_CAP_8BIT ;
           mret (set_data dst p)
         else mret dst) ;
  if is_null (data dst) then
    ESP_LOGE TAG "Failed to alloc resized image" [] ;;
    mret dst
  else
    let src_u8 := data src in
    let dst_u8 := data dst in
    for_int 0 target (fun y =>
      let sy := y0 +i (y *i crop) /i target in
      for_int 0 target (fun x =>
        let sx := x0 +i (x *i crop) /i target in
        let sidx := (sy *i width src +i sx) *i 3 in
        let didx := (y *i target +i x) *i 3 in
        b ← load_u8 src_u8 (sidx +i 0) ; store_u8 dst_u8 (didx +i 0) b ;;
        b ← load_u8 src_u8 (sidx +i 1) ; store_u8 dst_u8 (didx +i 1) b ;;
        b ← load_u8 src_u8 (sidx +i 2) ; store_u8 dst_u8 (didx +i 2) b)) ;;
    mret dst.

(** ** init_camera *)

Definition init_camera : M Z :=
  let config := {|
    ledc_channel := LEDC_CHANNEL_0;
    ledc_timer := LEDC_TIMER_0;
    pin_d0 := Y2_GPIO_NUM (pins env);
    pin_d1 := Y3_GPIO_NUM (pins env);
    pin_d2 := Y4_GPIO_NUM (pins env);
    pin_d3 := Y5_GPIO_NUM (pins env);
    pin_d4 := Y6_GPIO_NUM (pins env);
    pin_d5 := Y7_GPIO_NUM (pins env);
    pin_d6 := Y8_GPIO_NUM (pins env);
    pin_d7 := Y9_GPIO_NUM (pins env);
    pin_xclk := XCLK_GPIO_NUM (pins env);
    pin_pclk := PCLK_GPIO_NUM (pins env);
    pin_vsync := VSYNC_GPIO_NUM (pins env);
    pin_href := HREF_GPIO_NUM (pins env);
    pin_sccb_sda := SIOD_GPIO_NUM (pins env);
    pin_sccb_scl := SIOC_GPIO_NUM (pins env);
    pin_pwdn := PWDN_GPIO_NUM (pins env);
    pin_reset := RESET_GPIO_NUM (pins env);
    xclk_freq_hz := 20000000;
    pixel_format := PIXFORMAT_JPEG;
    frame_size := FRAMESIZE_240X240;
    jpeg_quality := 12;
    fb_count := 1
  |} in
  esp_camera_init config.

(** ** app_main

    The function is one block in the source; here it is cut at the points
    where the loop can leave an iteration, so that each stage has a name.
    [continue] ends the iteration: a stage that continues returns. *)

(** lines 104-108, the body of the warm-up loop *)
Definition warm_up_step (i : Z) : M unit :=
  fb ← esp_camera_fb_get ;
  match fb with
  | Some fb => esp_camera_fb_return fb
  | None => mret tt
  end ;;
  vTaskDelay_ms 50.

(** lines 161-174: classification, report, cleanup, pace *)
Definition classify_stage (frame : Z) (img224 : img_t)
    (det_results : list detect_result_t) : M unit :=
  cls_results ← gesture_recognize img224 det_results ;
  for_each cls_results (fun res =>
    ESP_LOGI TAG "[%d] Gesture: %s  score=%.2f"
      [ArgInt frame; ArgStr (cat_name res); ArgFloat (score res)]) ;;
  heap_caps_free (data img224) ;;
  vTaskDelay_ms 2000.

(** lines 151-159, then the classification *)
Definition detect_stage (frame : Z) (img224 : img_t) : M unit :=
  det_results ← hand_detect_run img224 ;
  match det_results with
  | [] =>
      ESP_LOGW TAG "[%d] No hand detected" [ArgInt frame] ;;
      heap_caps_free (data img224) ;;
      vTaskDelay_ms 300
  | _ :: _ => classify_stage frame img224 det_results
  end.

(** lines 146-149, then the detection *)
Definition dispatch_stage (frame : Z) (img224 : img_t) : M unit :=
  if is_null (data img224) then
    vTaskDelay_ms 100
  else detect_stage frame img224.

(** lines 143-144, then the test of the result *)
Definition preprocess_stage (frame : Z) (rgb : img_t) : M unit :=
  img224 ← crop_resize_224 rgb ;
  heap_caps_free (data rgb) ;;
  dispatch_stage frame img224.

(** the test of line 137 *)
Definition decode_failed (rgb : img_t) : bool :=
  is_null (data rgb) || (width rgb <=? 0) || (height rgb <=? 0).

(** lines 118-141, then the preprocessing: one turn of [while (true)].
    It takes the value of [frame] and returns the incremented one. *)
Definition app_main_iteration (frame : Z) : M Z :=
  let frame := frame +i 1 in
  fb ← esp_camera_fb_get ;
  match fb with
  | None =>
      ESP_LOGE TAG "Camera capture failed" [] ;;
      vTaskDelay_ms 100 ;;
      mret frame
  | Some fb =>
      let jpeg := {| jpeg_data := buf fb; jpeg_data_len := len fb |} in
      rgb ← sw_decode_jpeg jpeg DL_IMAGE_PIX_TYPE_RGB888 ;
      esp_camera_fb_return fb ;;
      if decode_failed rgb then
        ESP_LOGE TAG "JPEG decode failed" [] ;;
        (if negb (is_null (data rgb)) then heap_caps_free (data rgb)
         else mret tt) ;;
        mret frame
      else
        preprocess_stage frame rgb ;;
        mret frame
  end.

(** [while (true)], cut after [n] turns *)
Fixpoint app_main_loop (n : nat) (frame : Z) : M Z :=
  match n with
  | O => mret frame
  | S n' => frame' ← app_main_iteration frame ; app_main_loop n' frame'
  end.

(** The program up to the end of the [n]-th turn of its loop. *)
Definition app_main (n : nat) : M Z :=
  ESP_LOGI TAG "Init camera..." [] ;;
  err ← init_camera ;
  ESP_ERROR_CHECK err ;;
  ESP_LOGI TAG "Camera ready" [] ;;
  for_int 0 5 warm_up_step ;;
  emit EvNewHandDetect ;;
  emit (EvNewHandGestureRecognizer MOBILENETV2_0_5_S8_V1) ;;
  let frame := 0 in
  app_main_loop n frame.

End Program.

(** * Specification vocabulary *)

(** ** The geometry of the crop *)

(** The names the source gives to the values it computes from [src]. *)
Definition crop_side (src : img_t) : Z :=
  if width src <? height src then width src else height src.
Definition crop_x0 (src : img_t) : Z := (width src -i crop_side src) /i 2.
Definition crop_y0 (src : img_t) : Z := (height src -i crop_side src) /i 2.
(** [sx] and [sy] for the destination column [x] and row [y] *)
Definition sample_x (src : img_t) (x : Z) : Z :=
  crop_x0 src +i (x *i crop_side src) /i 224.
Definition sample_y (src : img_t) (y : Z) : Z :=
  crop_y0 src +i (y *i crop_side src) /i 224.
(** [sidx] and [didx] *)
Definition src_index (src : img_t) (x y : Z) : Z :=
  (sample_y src y *i width src +i sample_x src x) *i 3.
Definition dst_index (x y : Z) : Z := (y *i 224 +i x) *i 3.

(** The same values with the arithmetic of the integers, floor division:
    crop = min(width, height), x0 = (width - crop) / 2,
    sx = x0 + (x * crop) / 224. *)
Definition nn_crop (W H : Z) : Z := Z.min W H.
Definition nn_x0 (W H : Z) : Z := (W - nn_crop W H) / 2.
Definition nn_y0 (W H : Z) : Z := (H - nn_crop W H) / 2.
Definition nn_sx (W H x : Z) : Z := nn_x0 W H + (x * nn_crop W H) / 224.
Definition nn_sy (W H y : Z) : Z := nn_y0 W H + (y * nn_crop W H) / 224.

(** Dimensions of a picture whose [width * height * 3] bytes fit in one
    object of the target. *)
Definition picture_dims (W H : Z) : Prop :=
  1 <= W /\ 1 <= H /\ W * H * 3 <= Int.INT_MAX.

(** ** The preprocessor, stage by stage *)

(** The body of the inner loop, lines 50-55. *)
Definition copy_pixel (src : img_t) (dst_u8 : ptr) (y x : Z) : M unit :=
  b ← load_u8 (data src) (src_index src x y +i 0) ;
  store_u8 dst_u8 (dst_index x y +i 0) b ;;
  b ← load_u8 (data src) (src_index src x y +i 1) ;
  store_u8 dst_u8 (dst_index x y +i 1) b ;;
  b ← load_u8 (data src) (src_index src x y +i 2) ;
  store_u8 dst_u8 (dst_index x y +i 2) b.

(** The two loops, lines 47-57. *)
Definition copy_rows (src : img_t) (dst_u8 : ptr) : M unit :=
  for_int 0 224 (fun y => for_int 0 224 (fun x => copy_pixel src dst_u8 y x)).

(** The request of lines 33-34 and the one of lines 36-37. *)
Definition DST_SIZE : Z := 150528.
Definition FIRST_CAPS : Z := Z.lor MALLOC_CAP_SPIRAM MALLOC_CAP_8BIT.
Definition SECOND_CAPS : Z := MALLOC_CAP_8BIT.

Definition first_answer (env : Env) (w : World) : option (nat -> byte) :=
  malloc_answer env w DST_SIZE FIRST_CAPS.

(** The world in which the second request is made. *)
Definition refused_once (w : World) : World :=
  {| heap := heap w;
     trace := trace w ++ [EvMalloc DST_SIZE FIRST_CAPS NULL] |}.

Definition second_answer (env : Env) (w : World) : option (nat -> byte) :=
  malloc_answer env (refused_once w) DST_SIZE SECOND_CAPS.

(** The destination allocation succeeds: the first request is granted,
    or else the second one is. *)
Definition allocation_succeeds (env : Env) (w : World) : Prop :=
  is_Some (first_answer env w) \/ is_Some (second_answer env w).

Definition both_refused (env : Env) (w : World) : Prop :=
  first_answer env w = None /\ second_answer env w = None.

(** The image the preprocessor returns around the data pointer [p]. *)
Definition dst_image (p : ptr) : img_t :=
  {| data := p; width := 224; height := 224;
     pix_type := DL_IMAGE_PIX_TYPE_RGB888 |}.

(** The calls the preprocessor makes in [w]. *)
Definition alloc_events (env : Env) (w : World) : list event :=
  match first_answer env w with
  | Some _ => [EvMalloc DST_SIZE FIRST_CAPS (fresh_ptr (heap w))]
  | None =>
      match second_answer env w with
      | Some _ =>
          [EvMalloc DST_SIZE FIRST_CAPS NULL;
           EvMalloc DST_SIZE SECOND_CAPS (fresh_ptr (heap w))]
      | None =>
          [EvMalloc DST_SIZE FIRST_CAPS NULL;
           EvMalloc DST_SIZE SECOND_CAPS NULL;
           EvLog LOG_ERROR TAG "Failed to alloc resized image" []]
      end
  end.

(** The world right after a granted request: a new block at [q], and the
    calls [evs] on the trace. *)
Definition with_block (w : World) (q : ptr) (blk : list byte)
    (evs : list event) : World :=
  {| heap := <[q := blk]> (heap w); trace := trace w ++ evs |}.

(** ** Pictures *)

(** The largest size of an object on the 32-bit target. *)
Definition PTRDIFF_MAX : Z := Int.INT_MAX.

(** [src] is an RGB888 picture in the heap of [w]: width and height are at
    least 1, and [data] is a live block of [width * height * 3] bytes, rows
    first, three bytes a pixel.  The block is an object of the target, so
    it has at most [PTRDIFF_MAX] bytes. *)
Definition rgb888_image (w : World) (src : img_t) : Prop :=
  1 <= width src /\ 1 <= height src /\
  pix_type src = DL_IMAGE_PIX_TYPE_RGB888 /\
  exists bytes,
    heap w !! data src = Some bytes /\
    Z.of_nat (length bytes) = width src * height src * 3 /\
    Z.of_nat (length bytes) <= PTRDIFF_MAX.

(** The three channel bytes of the pixel in column [x] and row [y] of a
    picture of [W] columns. *)
Definition pixel (bytes : list byte) (W x y : Z)
  : option (byte * byte * byte) :=
  if (0 <=? x) && (x <? W) && (0 <=? y) then
    let i := (y * W + x) * 3 in
    match bytes !! Z.to_nat i, bytes !! Z.to_nat (i + 1),
          bytes !! Z.to_nat (i + 2) with
    | Some c0, Some c1, Some c2 => Some (c0, c1, c2)
    | _, _, _ => None
    end
  else None.

(** ** The state of the copy *)

(** The world while the loops run: the heap [h0] the preprocessor found,
    plus the destination block [d] at [q]; the trace stays [tr]. *)
Definition copying (h0 : gmap N (list byte)) (q : ptr) (tr : list event)
    (d : list byte) : World :=
  {| heap := <[q := d]> h0; trace := tr |}.

(** The first [n] pixels of the destination block [d], rows first, hold
    the bytes of their samples in [sbuf], a picture of [W] by [H]. *)
Definition copied (sbuf : list byte) (W H : Z) (n : Z) (d : list byte)
  : Prop :=
  Z.of_nat (length d) = DST_SIZE /\
  forall x y k,
    0 <= x < 224 -> 0 <= y -> y * 224 + x < n -> 0 <= k < 3 ->
    d !! Z.to_nat ((y * 224 + x) * 3 + k) =
    sbuf !! Z.to_nat ((nn_sy W H y * W + nn_sx W H x) * 3 + k).

(** ** Worlds and events of the loop *)

(** [w] after the calls [evs]. *)
Definition logged (w : World) (evs : list event) : World :=
  {| heap := heap w; trace := trace w ++ evs |}.

(** [w] after the calls [evs], the block at [p] freed. *)
Definition released (w : World) (p : ptr) (evs : list event) : World :=
  {| heap := delete p (heap w); trace := trace w ++ evs |}.

Definition gesture_log (frame : Z) (res : result_t) : event :=
  EvLog LOG_INFO TAG "[%d] Gesture: %s  score=%.2f"
    [ArgInt frame; ArgStr (cat_name res); ArgFloat (score res)].

Definition no_hand_log (frame : Z) : event :=
  EvLog LOG_WARN TAG "[%d] No hand detected" [ArgInt frame].

(** The frames handed back to the driver, the delays, the images given to
    the Localizer and to the Classifier, and the blocks freed, in order. *)
Definition fb_returns (evs : list event) : list camera_fb_t :=
  omap (fun e => match e with EvFbReturn fb => Some fb | _ => None end) evs.

Definition delays (evs : list event) : list Z :=
  omap (fun e => match e with EvDelay ms => Some ms | _ => None end) evs.

Definition detect_calls (evs : list event) : list img_t :=
  omap (fun e => match e with EvDetect img _ => Some img | _ => None end) evs.

Definition recognize_calls (evs : list event) : list img_t :=
  omap (fun e => match e with EvRecognize img _ _ => Some img | _ => None end)
    evs.

Definition frees (evs : list event) : list N :=
  omap (fun e => match e with EvFree p => Some p | _ => None end) evs.

(** The capabilities asked for and the pointers obtained, in order. *)
Definition malloc_calls (evs : list event) : list (Z * N) :=
  omap (fun e => match e with
                 | EvMalloc _ caps p => Some (caps, p)
                 | _ => None
                 end) evs.

(** The images the decoder returned, and what the Localizer was given
    and found. *)
Definition decoded_images (evs : list event) : list img_t :=
  omap (fun e => match e with EvDecode _ _ r => Some r | _ => None end) evs.

Definition detections (evs : list event)
  : list (img_t * list detect_result_t) :=
  omap (fun e => match e with EvDetect img r => Some (img, r) | _ => None end)
    evs.

Definition total_delay (evs : list event) : Z := foldr Z.add 0 (delays evs).

(** The start of a turn that got the frame [fb] and decoded it to [rgb]. *)
Definition front (fb : camera_fb_t) (rgb : img_t) : list event :=
  [EvFbGet (Some fb);
   EvDecode {| jpeg_data := buf fb; jpeg_data_len := len fb |}
     DL_IMAGE_PIX_TYPE_RGB888 rgb;
   EvFbReturn fb].

(** The calls of a preprocessor whose two requests are refused. *)
Definition refusal : list event :=
  [EvMalloc DST_SIZE FIRST_CAPS NULL;
   EvMalloc DST_SIZE SECOND_CAPS NULL;
   EvLog LOG_ERROR TAG "Failed to alloc resized image" []].

(** The calls of a preprocessor that obtains the block [q]. *)
Definition grant (q : ptr) (cevs : list event) : Prop :=
  cevs = [EvMalloc DST_SIZE FIRST_CAPS q] \/
  cevs = [EvMalloc DST_SIZE FIRST_CAPS NULL; EvMalloc DST_SIZE SECOND_CAPS q].

(** The ways a turn of the loop ends, with its result and its calls.  [h]
    is the heap at the start of the turn, [frame] the incremented counter,
    the third argument the answer of the camera.  A block that the turn
    allocates is not in [h]. *)
Inductive exit_path (h : gmap N (list byte)) (frame : Z)
  : option camera_fb_t -> outcome Z -> list event -> Prop :=
| exit_no_frame :
    exit_path h frame None (Done frame)
      [EvFbGet None; EvLog LOG_ERROR TAG "Camera capture failed" [];
       EvDelay 100]
| exit_decode_failed fb rgb :
    decode_failed rgb = true ->
    (data rgb <> NULL -> h !! data rgb = None) ->
    exit_path h frame (Some fb) (Done frame)
      (front fb rgb ++
       EvLog LOG_ERROR TAG "JPEG decode failed" [] ::
       (if is_null (data rgb) then [] else [EvFree (data rgb)]))
| exit_alloc_failed fb rgb :
    decode_failed rgb = false ->
    h !! data rgb = None ->
    exit_path h frame (Some fb) (Done frame)
      (front fb rgb ++ refusal ++ [EvFree (data rgb); EvDelay 100])
| exit_stopped fb rgb q cevs s :
    decode_failed rgb = false ->
    grant q cevs -> q <> NULL ->
    exit_path h frame (Some fb) (Stop s) (front fb rgb ++ cevs)
| exit_no_hand fb rgb q cevs :
    decode_failed rgb = false ->
    h !! data rgb = None ->
    grant q cevs -> q <> NULL -> h !! q = None ->
    exit_path h frame (Some fb) (Done frame)
      (front fb rgb ++ cevs ++
       [EvFree (data rgb); EvDetect (dst_image q) []; no_hand_log frame;
        EvFree q; EvDelay 300])
| exit_classified fb rgb q cevs dets cls :
    decode_failed rgb = false ->
    h !! data rgb = None ->
    grant q cevs -> q <> NULL -> h !! q = None ->
    dets <> [] ->
    exit_path h frame (Some fb) (Done frame)
      (front fb rgb ++ cevs ++
       [EvFree (data rgb); EvDetect (dst_image q) dets;
        EvRecognize (dst_image q) dets cls] ++
       map (gesture_log frame) cls ++ [EvFree q; EvDelay 2000]).

(** ** The empty-detection backoff, as the specification words it *)

(** "The delay applied after an empty detection result is longer than the
    steady-state delay applied after a fully processed frame": of any two
    turns, one in which the Localizer found nothing and one in which the
    Classifier was called, the first delays longer. *)
Definition backoff_longer_than_steady : Prop :=
  forall env1 frame1 w1 env2 frame2 w2 img,
    let evs1 := new_events w1 (after (app_main_iteration env1 frame1) w1) in
    let evs2 := new_events w2 (after (app_main_iteration env2 frame2) w2) in
    (img, []) ∈ detections evs1 ->
    recognize_calls evs2 <> [] ->
    total_delay evs1 > total_delay evs2.

(** ** A concrete board, for examples *)

Definition demo_pins : camera_pins_t :=
  mk_pins 11 9 8 10 12 18 17 16 15 13 6 7 4 5 (-1) (-1).

Definition demo_fb : camera_fb_t :=
  {| buf := ["255"; "216"; "255"; "217"]%byte; len := 4 |}.

(** A picture of two columns and one row. *)
Definition demo_pixels : list byte :=
  ["010"; "020"; "030"; "040"; "050"; "060"]%byte.

(** An environment whose answers do not depend on the past: the camera
    has a frame, the decoder answers [dec], the first and the second
    request for the destination are answered by [first] and [second], and
    the Localizer finds [dets]. *)
Definition demo_env (dec : decoded_t) (first second : option (nat -> byte))
    (dets : list detect_result_t) : Env :=
  {| pins := demo_pins;
     camera_init_answer := fun _ _ => ESP_OK;
     frame_answer := fun _ => Some demo_fb;
     decode_answer := fun _ _ _ => dec;
     malloc_answer := fun _ _ caps =>
       if caps =? FIRST_CAPS then first else second;
     detect_answer := fun _ _ => dets;
     recognize_answer := fun _ _ _ =>
       [{| cat_name := "five"; score := 1063675494 |}] |}.

Definition demo_decoded : decoded_t :=
  {| dec_width := 2; dec_height := 1; dec_pixels := Some demo_pixels |}.

Definition zeros : nat -> byte := fun _ => "000"%byte.
Definition ones : nat -> byte := fun _ => "255"%byte.

(** A world with the picture at address 7, and the image that names it. *)
Definition demo_world : World :=
  {| heap := {[ 7%N := demo_pixels ]}; trace := [] |}.
Definition demo_src : img_t :=
  {| data := 7%N; width := 2; height := 1;
     pix_type := DL_IMAGE_PIX_TYPE_RGB888 |}.

(** The same picture at another address, in a world with a past. *)
Definition demo_world' : World :=
  {| heap := {[ 3%N := demo_pixels; 4%N := [] ]}; trace := [EvDelay 50] |}.
Definition demo_src' : img_t :=
  {| data := 3%N; width := 2; height := 1;
     pix_type := DL_IMAGE_PIX_TYPE_RGB888 |}.

(** A decoder that fails with zero dimensions and a partial buffer. *)
Definition demo_failed : decoded_t :=
  {| dec_width := 0; dec_height := 0; dec_pixels := Some ["255"%byte] |}.

(** The image that decoder's answer becomes in [demo_world], where the
    first free address is 8. *)
Definition demo_failed_rgb : img_t :=
  {| data := 8%N; width := 0; height := 0;
     pix_type := DL_IMAGE_PIX_TYPE_RGB888 |}.

(** A picture of 224 by 224 pixels, striped, at address 9. *)
Definition stripes : nat -> byte :=
  fun i => if Nat.even i then "170"%byte else "085"%byte.
Definition square_pixels : list byte := block_of stripes DST_SIZE.
Definition square_world : World :=
  {| heap := {[ 9%N := square_pixels ]}; trace := [] |}.
Definition square_src : img_t :=
  {| data := 9%N; width := 224; height := 224;
     pix_type := DL_IMAGE_PIX_TYPE_RGB888 |}.

(** ** More pictures, for examples *)

(** The descriptor of a picture of 320 by 240, and of one of 100 by 60. *)
Definition landscape_src : img_t :=
  {| data := 7%N; width := 320; height := 240;
     pix_type := DL_IMAGE_PIX_TYPE_RGB888 |}.
Definition small_src : img_t :=
  {| data := 7%N; width := 100; height := 60;
     pix_type := DL_IMAGE_PIX_TYPE_RGB888 |}.

(** A picture of 320 by 224 pixels, striped, at address 9. *)
Definition wide_pixels : list byte := block_of stripes (320 * 224 * 3).
Definition wide_world : World :=
  {| heap := {[ 9%N := wide_pixels ]}; trace := [] |}.
Definition wide_src : img_t :=
  {| data := 9%N; width := 320; height := 224;
     pix_type := DL_IMAGE_PIX_TYPE_RGB888 |}.

(** ** Calls of a computation *)

(** Every run of [m] only adds calls to the trace, and the calls it adds
    satisfy [Q]. *)
Definition emits {A} (Q : list event -> Prop) (m : M A) : Prop :=
  forall w, exists evs, trace (after m w) = trace w ++ evs /\ Q evs.

(** The answers of the camera, what the Classifier was given and
    returned, and the arguments of the reports, in order. *)
Definition acquisitions (evs : list event) : list (option camera_fb_t) :=
  omap (fun e => match e with EvFbGet r => Some r | _ => None end) evs.

Definition recognitions (evs : list event)
  : list (img_t * list detect_result_t * list result_t) :=
  omap (fun e => match e with
                 | EvRecognize img dets r => Some (img, dets, r)
                 | _ => None
                 end) evs.

Definition reports (evs : list event) : list (list log_arg) :=
  omap (fun e => match e with
                 | EvLog LOG_INFO _ _ args => Some args
                 | _ => None
                 end) evs.

(** The blocks a trace obtained, in order: the data of the images the
    decoder returned and the results of the requests to the allocator,
    null pointers left out. *)
Definition obtained (evs : list event) : list N :=
  omap (fun e => match e with
                 | EvDecode _ _ r =>
                     if is_null (data r) then None else Some (data r)
                 | EvMalloc _ _ p => if is_null p then None else Some p
                 | _ => None
                 end) evs.

(** The discipline of the frame buffer along a trace, [held] being the
    frame the program holds at its start: a frame is asked for only when
    none is held, the decoder is given the buffer of the frame that is
    held, a frame is handed back only while it is held, and none is held
    at the end. *)
Fixpoint frames_in_order (held : option camera_fb_t) (evs : list event)
  : Prop :=
  match evs with
  | [] => held = None
  | EvFbGet r :: evs' => held = None /\ frames_in_order r evs'
  | EvDecode jpeg _ _ :: evs' =>
      (exists fb, held = Some fb /\
                  jpeg = {| jpeg_data := buf fb; jpeg_data_len := len fb |}) /\
      frames_in_order held evs'
  | EvFbReturn fb :: evs' => held = Some fb /\ frames_in_order None evs'
  | _ :: evs' => frames_in_order held evs'
  end.

(** The delay of a turn, read off what the turn decoded and detected:
    100 ms without a frame, none after a failed decode, 100 ms when the
    Localizer was not reached, 300 ms when it found nothing, 2000 ms
    otherwise. *)
Definition turn_delay (evs : list event) : Z :=
  match decoded_images evs with
  | [] => 100
  | rgb :: _ =>
      if decode_failed rgb then 0
      else match detections evs with
           | [] => 100
           | (_, []) :: _ => 300
           | (_, _ :: _) :: _ => 2000
           end
  end.

(** The calls of one step of the warm-up when the camera answers [r]. *)
Definition warm_up_calls (r : option camera_fb_t) : list event :=
  EvFbGet r ::
  match r with Some fb => [EvFbReturn fb] | None => [] end ++ [EvDelay 50].

(** The decoder keeps its contract: an image it returns with data and
    with a width and a height of at least 1 is a picture, the block having
    [width * height * 3] bytes and being an object of the target. *)
Definition decoder_keeps_contract (env : Env) : Prop :=
  forall w jpeg pt px,
    let dec := decode_answer env w jpeg pt in
    dec_pixels dec = Some px ->
    1 <= dec_width dec -> 1 <= dec_height dec ->
    Z.of_nat (length px) = dec_width dec * dec_height dec * 3 /\
    Z.of_nat (length px) <= PTRDIFF_MAX.

(** The example board with a camera that answers [init] to its start-up
    and [frame] to every request. *)
Definition board_env (init : Z) (frame : option camera_fb_t)
    (dec : decoded_t) (first second : option (nat -> byte))
    (dets : list detect_result_t) : Env :=
  {| pins := demo_pins;
     camera_init_answer := fun _ _ => init;
     frame_answer := fun _ => frame;
     decode_answer := fun _ _ _ => dec;
     malloc_answer := fun _ _ caps =>
       if caps =? FIRST_CAPS then first else second;
     detect_answer := fun _ _ => dets;
     recognize_answer := fun _ _ _ =>
       [{| cat_name := "five"; score := 1063675494 |}] |}.

(** * Properties *)

(** ** Arithmetic of [int] where nothing overflows *)

Lemma wrap_id z : Int.in_range z -> Int.wrap z = z.
Proof.
  unfold Int.in_range, Int.INT_MIN, Int.INT_MAX, Int.wrap. intros Hz.
  rewrite Z.mod_small; lia.
Qed.

Lemma wrap_in_range z : Int.in_range (Int.wrap z).
Proof.
  unfold Int.in_range, Int.INT_MIN, Int.INT_MAX, Int.wrap.
  pose proof (Z.mod_pos_bound (z + 2 ^ 31) (2 ^ 32)). lia.
Qed.

Lemma add_exact a b : Int.in_range (a + b) -> a +i b = a + b.
Proof. apply wrap_id. Qed.

Lemma sub_exact a b : Int.in_range (a - b) -> a -i b = a - b.
Proof. apply wrap_id. Qed.

Lemma mul_exact a b : Int.in_range (a * b) -> a *i b = a * b.
Proof. apply wrap_id. Qed.

(** On non-negative operands the quotient of C++ is the floor. *)
Lemma div_exact a b :
  0 <= a -> 0 < b -> Int.in_range a -> a /i b = a / b.
Proof.
  intros Ha Hb Hr. unfold Int.div. rewrite Z.quot_div_nonneg by lia.
  apply wrap_id. unfold Int.in_range, Int.INT_MIN, Int.INT_MAX in *.
  assert (0 <= a / b) by (apply Z.div_pos; lia).
  assert (a / b <= a) by (apply Z.div_le_upper_bound; nia).
  lia.
Qed.

(** ** The geometry of the crop: no overflow *)

Lemma dims_bounds W H :
  picture_dims W H ->
  1 <= nn_crop W H <= 26754 /\ nn_crop W H <= W /\ nn_crop W H <= H /\
  W <= Int.INT_MAX /\ H <= Int.INT_MAX.
Proof.
  unfold picture_dims, nn_crop, Int.INT_MAX. intros (HW & HH & Hsz).
  assert (Z.min W H * Z.min W H <= W * H) by nia.
  repeat split; try lia; nia.
Qed.

Lemma crop_side_min src : crop_side src = nn_crop (width src) (height src).
Proof. unfold crop_side, nn_crop. destruct (Z.ltb_spec (width src) (height src)); lia. Qed.

Lemma crop_x0_exact src :
  picture_dims (width src) (height src) ->
  crop_x0 src = nn_x0 (width src) (height src).
Proof.
  intros Hd. pose proof (dims_bounds _ _ Hd) as Hb.
  unfold crop_x0, nn_x0. rewrite crop_side_min.
  unfold Int.INT_MAX in *.
  rewrite sub_exact by (unfold Int.in_range, Int.INT_MIN, Int.INT_MAX; lia).
  apply div_exact; unfold Int.in_range, Int.INT_MIN, Int.INT_MAX; lia.
Qed.

Lemma crop_y0_exact src :
  picture_dims (width src) (height src) ->
  crop_y0 src = nn_y0 (width src) (height src).
Proof.
  intros Hd. pose proof (dims_bounds _ _ Hd) as Hb.
  unfold crop_y0, nn_y0. rewrite crop_side_min.
  unfold Int.INT_MAX in *.
  rewrite sub_exact by (unfold Int.in_range, Int.INT_MIN, Int.INT_MAX; lia).
  apply div_exact; unfold Int.in_range, Int.INT_MIN, Int.INT_MAX; lia.
Qed.

Lemma nn_x0_bounds W H :
  picture_dims W H -> 0 <= nn_x0 W H /\ nn_x0 W H + nn_crop W H <= W.
Proof.
  intros Hd. pose proof (dims_bounds _ _ Hd) as Hb. unfold nn_x0.
  pose proof (Z.div_mod (W - nn_crop W H) 2 ltac:(lia)).
  pose proof (Z.mod_pos_bound (W - nn_crop W H) 2 ltac:(lia)). lia.
Qed.

Lemma nn_y0_bounds W H :
  picture_dims W H -> 0 <= nn_y0 W H /\ nn_y0 W H + nn_crop W H <= H.
Proof.
  intros Hd. pose proof (dims_bounds _ _ Hd) as Hb. unfold nn_y0.
  pose proof (Z.div_mod (H - nn_crop W H) 2 ltac:(lia)).
  pose proof (Z.mod_pos_bound (H - nn_crop W H) 2 ltac:(lia)). lia.
Qed.

(** A destination coordinate below 224 is scaled to an offset inside the
    crop square. *)
Lemma scaled_bounds c t : 1 <= c -> 0 <= t < 224 -> 0 <= (t * c) / 224 < c.
Proof.
  intros Hc Ht. split.
  - apply Z.div_pos; nia.
  - apply Z.div_lt_upper_bound; nia.
Qed.

Lemma nn_sx_bounds W H x :
  picture_dims W H -> 0 <= x < 224 -> 0 <= nn_sx W H x < W.
Proof.
  intros Hd Hx. pose proof (dims_bounds _ _ Hd) as Hb.
  pose proof (nn_x0_bounds _ _ Hd).
  pose proof (scaled_bounds (nn_crop W H) x ltac:(lia) Hx).
  unfold nn_sx. lia.
Qed.

Lemma nn_sy_bounds W H y :
  picture_dims W H -> 0 <= y < 224 -> 0 <= nn_sy W H y < H.
Proof.
  intros Hd Hy. pose proof (dims_bounds _ _ Hd) as Hb.
  pose proof (nn_y0_bounds _ _ Hd).
  pose proof (scaled_bounds (nn_crop W H) y ltac:(lia) Hy).
  unfold nn_sy. lia.
Qed.

Lemma scaled_exact c t :
  1 <= c <= 26754 -> 0 <= t < 224 -> (t *i c) /i 224 = (t * c) / 224.
Proof.
  intros Hc Ht.
  assert (0 <= t * c <= 223 * 26754) by nia.
  rewrite mul_exact by (unfold Int.in_range, Int.INT_MIN, Int.INT_MAX; lia).
  apply div_exact; unfold Int.in_range, Int.INT_MIN, Int.INT_MAX; lia.
Qed.

Lemma sample_x_exact src x :
  picture_dims (width src) (height src) -> 0 <= x < 224 ->
  sample_x src x = nn_sx (width src) (height src) x.
Proof.
  intros Hd Hx. pose proof (dims_bounds _ _ Hd) as Hb.
  pose proof (nn_sx_bounds _ _ x Hd Hx) as Hs.
  unfold sample_x. rewrite crop_x0_exact, crop_side_min by done.
  rewrite scaled_exact by lia.
  apply add_exact. fold (nn_sx (width src) (height src) x).
  unfold Int.in_range, Int.INT_MIN, Int.INT_MAX in *. lia.
Qed.

Lemma sample_y_exact src y :
  picture_dims (width src) (height src) -> 0 <= y < 224 ->
  sample_y src y = nn_sy (width src) (height src) y.
Proof.
  intros Hd Hy. pose proof (dims_bounds _ _ Hd) as Hb.
  pose proof (nn_sy_bounds _ _ y Hd Hy) as Hs.
  unfold sample_y. rewrite crop_y0_exact, crop_side_min by done.
  rewrite scaled_exact by lia.
  apply add_exact. fold (nn_sy (width src) (height src) y).
  unfold Int.in_range, Int.INT_MIN, Int.INT_MAX in *. lia.
Qed.

(** The byte offset of a pixel inside a picture of [W] columns. *)
Lemma pixel_offset_bounds W H sx sy :
  0 <= sx < W -> 0 <= sy < H ->
  0 <= sy * W + sx /\ (sy * W + sx) * 3 + 2 < W * H * 3.
Proof. intros Hx Hy. split; nia. Qed.

Lemma src_index_exact src x y :
  picture_dims (width src) (height src) -> 0 <= x < 224 -> 0 <= y < 224 ->
  src_index src x y =
  (nn_sy (width src) (height src) y * width src
   + nn_sx (width src) (height src) x) * 3.
Proof.
  intros Hd Hx Hy.
  pose proof (nn_sx_bounds _ _ x Hd Hx) as Hsx.
  pose proof (nn_sy_bounds _ _ y Hd Hy) as Hsy.
  pose proof (pixel_offset_bounds _ _ _ _ Hsx Hsy) as [Ho1 Ho2].
  destruct Hd as (HW & HH & Hsz).
  assert (0 <= nn_sy (width src) (height src) y * width src) by nia.
  unfold src_index. rewrite sample_x_exact, sample_y_exact by done.
  unfold Int.INT_MAX in *.
  rewrite (mul_exact (nn_sy _ _ _))
    by (unfold Int.in_range, Int.INT_MIN, Int.INT_MAX; lia).
  rewrite add_exact by (unfold Int.in_range, Int.INT_MIN, Int.INT_MAX; lia).
  rewrite mul_exact by (unfold Int.in_range, Int.INT_MIN, Int.INT_MAX; lia).
  reflexivity.
Qed.

Lemma dst_index_exact x y :
  0 <= x < 224 -> 0 <= y < 224 -> dst_index x y = (y * 224 + x) * 3.
Proof.
  intros Hx Hy. unfold dst_index.
  rewrite (mul_exact y 224)
    by (unfold Int.in_range, Int.INT_MIN, Int.INT_MAX; lia).
  rewrite add_exact by (unfold Int.in_range, Int.INT_MIN, Int.INT_MAX; lia).
  rewrite mul_exact by (unfold Int.in_range, Int.INT_MIN, Int.INT_MAX; lia).
  reflexivity.
Qed.

(** ** Running the monad *)

Lemma bind_run {A B} (m : M A) (f : A -> M B) w :
  (m ≫= f) w =
  match m w with
  | (Done a, w') => f a w'
  | (Stop s, w') => (Stop s, w')
  end.
Proof. reflexivity. Qed.

Lemma bind_done {A B} (m : M A) (f : A -> M B) w a w' :
  m w = (Done a, w') -> (m ≫= f) w = f a w'.
Proof. intros H. rewrite bind_run, H. reflexivity. Qed.

Lemma bind_stop {A B} (m : M A) (f : A -> M B) w s w' :
  m w = (Stop s, w') -> (m ≫= f) w = (Stop s, w').
Proof. intros H. rewrite bind_run, H. reflexivity. Qed.

Lemma new_events_app w w' evs :
  trace w' = trace w ++ evs -> new_events w w' = evs.
Proof. intros H. unfold new_events. rewrite H. apply drop_app_length. Qed.

(** A property every turn of the body keeps holds after the loop, however
    the loop ends. *)
Lemma for_loop_preserves (P : World -> Prop) (body : Z -> M unit) :
  (forall i w, P w -> P (after (body i) w)) ->
  forall n i w, P w -> P (after (for_loop n i body) w).
Proof.
  intros Hbody n. induction n as [|n IH]; intros i w Hw.
  - exact Hw.
  - cbn [for_loop]. unfold after in *. rewrite bind_run.
    specialize (Hbody i w Hw).
    destruct (body i w) as [[[]|s] w1]; cbn [snd] in *.
    + apply IH, Hbody.
    + exact Hbody.
Qed.

(** A loop whose every turn ends and moves the invariant one step on ends,
    with the invariant at the upper bound. *)
Lemma for_loop_total (I : Z -> World -> Prop) (body : Z -> M unit) :
  forall n lo,
    Int.INT_MIN <= lo -> lo + Z.of_nat n <= Int.INT_MAX ->
    (forall i w, lo <= i < lo + Z.of_nat n -> I i w ->
       exists w', body i w = (Done tt, w') /\ I (i + 1) w') ->
    forall w, I lo w ->
    exists w', for_loop n lo body w = (Done tt, w') /\ I (lo + Z.of_nat n) w'.
Proof.
  induction n as [|n IH]; intros lo Hlo Hhi Hbody w Hw.
  - exists w. split; [reflexivity|]. by rewrite Z.add_0_r.
  - destruct (Hbody lo w ltac:(lia) Hw) as (w1 & Hrun & Hw1).
    cbn [for_loop]. rewrite (bind_done _ _ _ _ _ Hrun).
    rewrite add_exact by (unfold Int.in_range; lia).
    destruct (IH (lo + 1) ltac:(lia) ltac:(lia)) with (w := w1)
      as (w2 & Hrun2 & Hw2); [|exact Hw1|].
    + intros i w' Hi. apply Hbody. lia.
    + exists w2. split; [exact Hrun2|].
      by replace (lo + Z.of_nat (S n)) with (lo + 1 + Z.of_nat n) by lia.
Qed.

Lemma for_int_total (I : Z -> World -> Prop) (body : Z -> M unit) lo hi :
  Int.INT_MIN <= lo -> lo <= hi -> hi <= Int.INT_MAX ->
  (forall i w, lo <= i < hi -> I i w ->
     exists w', body i w = (Done tt, w') /\ I (i + 1) w') ->
  forall w, I lo w ->
  exists w', for_int lo hi body w = (Done tt, w') /\ I hi w'.
Proof.
  intros Hlo Hle Hhi Hbody w Hw. unfold for_int.
  destruct (for_loop_total I body (Z.to_nat (hi - lo)) lo) with (w := w)
    as (w' & Hrun & Hw'); try lia; try done.
  - intros i w1 Hi. apply Hbody. lia.
  - exists w'. split; [done|].
    by replace (lo + Z.of_nat (Z.to_nat (hi - lo))) with hi in Hw' by lia.
Qed.

(** ** Loads and stores while the copy runs *)

Lemma load_u8_copying h0 q tr d p blk i b :
  h0 !! p = Some blk -> h0 !! q = None -> 0 <= i ->
  blk !! Z.to_nat i = Some b ->
  load_u8 p i (copying h0 q tr d) = (Done b, copying h0 q tr d).
Proof.
  intros Hp Hq Hi Hb. unfold load_u8, copying. cbn [heap].
  rewrite lookup_insert_ne by congruence. rewrite Hp.
  destruct (Z.leb_spec 0 i); [|lia]. by rewrite Hb.
Qed.

Lemma store_u8_copying h0 q tr d i b :
  0 <= i < Z.of_nat (length d) ->
  store_u8 q i b (copying h0 q tr d) =
  (Done tt, copying h0 q tr (<[Z.to_nat i := b]> d)).
Proof.
  intros Hi. unfold store_u8, copying. cbn [heap trace].
  rewrite lookup_insert_eq.
  destruct (Z.leb_spec 0 i); [|lia].
  destruct (Z.ltb_spec i (Z.of_nat (length d))); [|lia].
  cbn [andb]. by rewrite insert_insert_eq.
Qed.

(** ** One pixel *)

Lemma copy_pixel_step src sbuf h0 q tr x y d :
  picture_dims (width src) (height src) ->
  h0 !! data src = Some sbuf ->
  Z.of_nat (length sbuf) = width src * height src * 3 ->
  h0 !! q = None ->
  0 <= x < 224 -> 0 <= y < 224 ->
  copied sbuf (width src) (height src) (y * 224 + x) d ->
  exists d',
    copy_pixel src q y x (copying h0 q tr d) = (Done tt, copying h0 q tr d') /\
    copied sbuf (width src) (height src) (y * 224 + x + 1) d'.
Proof.
  intros Hdims Hsrc Hslen Hq Hx Hy [Hlen Hpix].
  pose proof (nn_sx_bounds _ _ x Hdims Hx) as Hsx.
  pose proof (nn_sy_bounds _ _ y Hdims Hy) as Hsy.
  pose proof (pixel_offset_bounds _ _ _ _ Hsx Hsy) as [Ho1 Ho2].
  set (si := (nn_sy (width src) (height src) y * width src
              + nn_sx (width src) (height src) x) * 3) in *.
  set (di := (y * 224 + x) * 3).
  assert (Hmax : width src * height src * 3 <= 2147483647)
    by (destruct Hdims as (_ & _ & Hm); exact Hm).
  unfold DST_SIZE in Hlen.
  destruct (lookup_lt_is_Some_2 sbuf (Z.to_nat (si + 0))) as [b0 Hb0]; [lia|].
  destruct (lookup_lt_is_Some_2 sbuf (Z.to_nat (si + 1))) as [b1 Hb1]; [lia|].
  destruct (lookup_lt_is_Some_2 sbuf (Z.to_nat (si + 2))) as [b2 Hb2]; [lia|].
  exists (<[Z.to_nat (di + 2) := b2]>
            (<[Z.to_nat (di + 1) := b1]> (<[Z.to_nat (di + 0) := b0]> d))).
  split.
  - unfold copy_pixel.
    rewrite src_index_exact, dst_index_exact by done.
    fold si di.
    rewrite !add_exact
      by (unfold Int.in_range, Int.INT_MIN, Int.INT_MAX; lia).
    assert (Hd0 : 0 <= di + 0 < Z.of_nat (length d)) by lia.
    rewrite (bind_done _ _ _ _ _
               (load_u8_copying h0 q tr d _ _ (si + 0) b0 Hsrc Hq
                  ltac:(lia) Hb0)).
    rewrite (bind_done _ _ _ _ _ (store_u8_copying h0 q tr d _ b0 Hd0)).
    set (d1 := <[Z.to_nat (di + 0) := b0]> d).
    assert (Hd1 : 0 <= di + 1 < Z.of_nat (length d1))
      by (unfold d1; rewrite length_insert; lia).
    rewrite (bind_done _ _ _ _ _
               (load_u8_copying h0 q tr d1 _ _ (si + 1) b1 Hsrc Hq
                  ltac:(lia) Hb1)).
    rewrite (bind_done _ _ _ _ _ (store_u8_copying h0 q tr d1 _ b1 Hd1)).
    set (d2 := <[Z.to_nat (di + 1) := b1]> d1).
    assert (Hd2 : 0 <= di + 2 < Z.of_nat (length d2))
      by (unfold d2, d1; rewrite !length_insert; lia).
    rewrite (bind_done _ _ _ _ _
               (load_u8_copying h0 q tr d2 _ _ (si + 2) b2 Hsrc Hq
                  ltac:(lia) Hb2)).
    exact (store_u8_copying h0 q tr d2 _ b2 Hd2).
  - split; [unfold DST_SIZE; rewrite !length_insert; lia|].
    intros x' y' k Hx' Hy' Hn Hk.
    destruct (Z.eq_dec (y' * 224 + x') (y * 224 + x)) as [Heq|Hne].
    + assert (x' = x /\ y' = y) as [-> ->] by lia.
      fold si di.
      assert (k = 0 \/ k = 1 \/ k = 2) as [-> | [-> | ->]] by lia.
      * rewrite !list_lookup_insert_ne by lia.
        rewrite list_lookup_insert_eq by lia. by rewrite Hb0.
      * rewrite list_lookup_insert_ne by lia.
        rewrite list_lookup_insert_eq by (rewrite length_insert; lia).
        by rewrite Hb1.
      * rewrite list_lookup_insert_eq by (rewrite !length_insert; lia).
        by rewrite Hb2.
    + rewrite !list_lookup_insert_ne by (unfold di; lia).
      apply Hpix; lia.
Qed.

(** ** The two loops *)

Lemma copied_start sbuf W H d :
  Z.of_nat (length d) = DST_SIZE -> copied sbuf W H 0 d.
Proof. intros Hlen. split; [done|]. intros x y k Hx Hy Hn. lia. Qed.

Lemma copy_rows_total src sbuf h0 q tr d :
  picture_dims (width src) (height src) ->
  h0 !! data src = Some sbuf ->
  Z.of_nat (length sbuf) = width src * height src * 3 ->
  h0 !! q = None ->
  Z.of_nat (length d) = DST_SIZE ->
  exists d',
    copy_rows src q (copying h0 q tr d) = (Done tt, copying h0 q tr d') /\
    copied sbuf (width src) (height src) (224 * 224) d'.
Proof.
  intros Hdims Hsrc Hslen Hq Hlen.
  pose (row := fun (y : Z) (w : World) =>
    exists d', w = copying h0 q tr d' /\
               copied sbuf (width src) (height src) (y * 224) d').
  destruct (for_int_total row
              (fun y => for_int 0 224 (fun x => copy_pixel src q y x))
              0 224) with (w := copying h0 q tr d)
    as (w' & Hrun & d' & -> & Hd');
    try (unfold Int.INT_MIN, Int.INT_MAX; lia).
  - intros y w Hy (d1 & -> & Hd1).
    pose (col := fun (x : Z) (w : World) =>
      exists d', w = copying h0 q tr d' /\
                 copied sbuf (width src) (height src) (y * 224 + x) d').
    destruct (for_int_total col (fun x => copy_pixel src q y x) 0 224)
      with (w := copying h0 q tr d1) as (w' & Hrun & d2 & -> & Hd2);
      try (unfold Int.INT_MIN, Int.INT_MAX; lia).
    + intros x w Hx (d2 & -> & Hd2).
      destruct (copy_pixel_step src sbuf h0 q tr x y d2) as (d3 & Hrun & Hd3);
        try done; try lia.
      exists (copying h0 q tr d3). split; [done|]. exists d3. split; [done|].
      by replace (y * 224 + (x + 1)) with (y * 224 + x + 1) by lia.
    + exists d1. split; [done|]. by rewrite Z.add_0_r.
    + exists (copying h0 q tr d2). split; [done|]. exists d2. split; [done|].
      by replace ((y + 1) * 224) with (y * 224 + 224) by lia.
  - exists d. split; [done|]. by apply copied_start.
  - exists d'. split; [exact Hrun | exact Hd'].
Qed.

(** ** The allocation *)

Lemma fresh_ptr_not_null h : fresh_ptr h <> NULL.
Proof.
  unfold fresh_ptr. intros Heq.
  apply (is_fresh ({[NULL]} ∪ dom h)). rewrite Heq. set_solver.
Qed.

Lemma fresh_ptr_free h : h !! fresh_ptr h = None.
Proof.
  unfold fresh_ptr.
  pose proof (is_fresh ({[NULL]} ∪ dom h)) as Hf.
  apply not_elem_of_dom. set_solver.
Qed.

Lemma fresh_ptr_other h p x : h !! p = Some x -> p <> fresh_ptr h.
Proof. intros Hp Heq. rewrite Heq, fresh_ptr_free in Hp. discriminate. Qed.

Lemma is_null_false p : p <> NULL -> is_null p = false.
Proof. intros Hp. unfold is_null. by apply N.eqb_neq. Qed.

Lemma is_null_true p : is_null p = true -> p = NULL.
Proof. unfold is_null. apply N.eqb_eq. Qed.

Lemma length_block_of f size :
  0 <= size -> Z.of_nat (length (block_of f size)) = size.
Proof.
  intros Hs. unfold block_of. rewrite length_fmap, length_seq. lia.
Qed.

Lemma dst_size_eq : 224 *i 224 *i 3 = DST_SIZE.
Proof. reflexivity. Qed.

(** What the preprocessor does, by the answers to its requests. *)
(** The named pieces of the preprocessor, unfolded to the text of
    [crop_resize_224]. *)
Ltac unfold_copy :=
  unfold copy_rows, copy_pixel, src_index, dst_index, sample_x, sample_y,
    crop_x0, crop_y0, crop_side, with_block, dst_image;
  cbn [width height pix_type set_data data].

Lemma crop_run_first env src w f :
  first_answer env w = Some f ->
  crop_resize_224 env src w =
  (copy_rows src (fresh_ptr (heap w)) ;; mret (dst_image (fresh_ptr (heap w))))
    (with_block w (fresh_ptr (heap w)) (block_of f DST_SIZE)
       [EvMalloc DST_SIZE FIRST_CAPS (fresh_ptr (heap w))]).
Proof.
  intros Hf. unfold first_answer in Hf.
  unfold crop_resize_224. rewrite dst_size_eq.
  rewrite bind_run. unfold heap_caps_malloc at 1.
  fold FIRST_CAPS. rewrite Hf.
  cbn [set_data data]. rewrite bind_run.
  rewrite (is_null_false _ (fresh_ptr_not_null (heap w))).
  cbn [mret M_ret set_data data].
  rewrite (is_null_false _ (fresh_ptr_not_null (heap w))).
  unfold_copy. reflexivity.
Qed.

Lemma crop_run_second env src w f :
  first_answer env w = None -> second_answer env w = Some f ->
  crop_resize_224 env src w =
  (copy_rows src (fresh_ptr (heap w)) ;; mret (dst_image (fresh_ptr (heap w))))
    (with_block (refused_once w) (fresh_ptr (heap w)) (block_of f DST_SIZE)
       [EvMalloc DST_SIZE SECOND_CAPS (fresh_ptr (heap w))]).
Proof.
  intros Hf Hs. unfold first_answer in Hf. unfold second_answer in Hs.
  unfold crop_resize_224. rewrite dst_size_eq.
  rewrite bind_run. unfold heap_caps_malloc at 1.
  fold FIRST_CAPS. rewrite Hf.
  cbn [set_data data]. rewrite bind_run.
  change (is_null NULL) with true. cbn match.
  rewrite bind_run. unfold heap_caps_malloc.
  fold SECOND_CAPS. fold (refused_once w). rewrite Hs.
  cbn [mret M_ret set_data data heap refused_once].
  rewrite (is_null_false _ (fresh_ptr_not_null (heap w))).
  unfold_copy. reflexivity.
Qed.

Lemma crop_run_refused env src w :
  first_answer env w = None -> second_answer env w = None ->
  crop_resize_224 env src w =
  (Done (dst_image NULL),
   {| heap := heap w; trace := trace w ++ alloc_events env w |}).
Proof.
  intros Hf Hs. unfold alloc_events. rewrite Hf, Hs.
  unfold first_answer in Hf. unfold second_answer in Hs.
  unfold crop_resize_224. rewrite dst_size_eq.
  rewrite bind_run. unfold heap_caps_malloc at 1.
  fold FIRST_CAPS. rewrite Hf.
  cbn [set_data data]. rewrite bind_run.
  change (is_null NULL) with true. cbn match.
  rewrite bind_run. unfold heap_caps_malloc.
  fold SECOND_CAPS. fold (refused_once w). rewrite Hs.
  cbn [mret M_ret set_data data heap trace refused_once].
  change (is_null NULL) with true. cbn match.
  unfold ESP_LOGE, emit, mbind, M_bind, mret, M_ret. cbn [heap trace].
  rewrite <- !app_assoc. reflexivity.
Qed.

Lemma alloc_events_first env w f :
  first_answer env w = Some f ->
  alloc_events env w = [EvMalloc DST_SIZE FIRST_CAPS (fresh_ptr (heap w))].
Proof. intros Hf. unfold alloc_events. by rewrite Hf. Qed.

Lemma alloc_events_second env w f :
  first_answer env w = None -> second_answer env w = Some f ->
  alloc_events env w =
  [EvMalloc DST_SIZE FIRST_CAPS NULL;
   EvMalloc DST_SIZE SECOND_CAPS (fresh_ptr (heap w))].
Proof. intros Hf Hs. unfold alloc_events. by rewrite Hf, Hs. Qed.

(** When a request is granted the copy starts in this world. *)
Lemma crop_run_granted env src w :
  allocation_succeeds env w ->
  exists f,
    crop_resize_224 env src w =
    (copy_rows src (fresh_ptr (heap w)) ;;
     mret (dst_image (fresh_ptr (heap w))))
      (copying (heap w) (fresh_ptr (heap w))
         (trace w ++ alloc_events env w) (block_of f DST_SIZE)).
Proof.
  intros Hok.
  destruct (first_answer env w) as [f|] eqn:Hf.
  - exists f. rewrite (crop_run_first _ _ _ _ Hf).
    by rewrite (alloc_events_first _ _ _ Hf).
  - destruct Hok as [[? Hok] | [f Hs]]; [congruence|].
    exists f. rewrite (crop_run_second _ _ _ _ Hf Hs).
    rewrite (alloc_events_second _ _ _ Hf Hs).
    unfold with_block, copying, refused_once. cbn [heap trace].
    by rewrite <- app_assoc.
Qed.

(** The preprocessor on a picture: it returns, and the destination block
    holds the samples. *)
Lemma crop_resize_224_granted env src w sbuf :
  picture_dims (width src) (height src) ->
  heap w !! data src = Some sbuf ->
  Z.of_nat (length sbuf) = width src * height src * 3 ->
  allocation_succeeds env w ->
  exists d,
    crop_resize_224 env src w =
    (Done (dst_image (fresh_ptr (heap w))),
     copying (heap w) (fresh_ptr (heap w))
       (trace w ++ alloc_events env w) d) /\
    copied sbuf (width src) (height src) (224 * 224) d.
Proof.
  intros Hdims Hsrc Hslen Hok.
  destruct (crop_run_granted env src w Hok) as [f ->].
  assert (Hlen : Z.of_nat (length (block_of f DST_SIZE)) = DST_SIZE)
    by (by apply length_block_of).
  destruct (copy_rows_total src sbuf (heap w) (fresh_ptr (heap w))
              (trace w ++ alloc_events env w) (block_of f DST_SIZE)
              Hdims Hsrc Hslen (fresh_ptr_free _) Hlen)
    as (d & Hrun & Hd).
  exists d. split; [|exact Hd].
  by rewrite (bind_done _ _ _ _ _ Hrun).
Qed.

(** ** The preprocessor on any argument *)

Lemma load_u8_world p i w : snd (load_u8 p i w) = w.
Proof.
  unfold load_u8. destruct (heap w !! p) as [blk|]; [|done].
  destruct (0 <=? i); [|done]. by destruct (blk !! Z.to_nat i).
Qed.

Lemma store_u8_copying_any h0 q tr d i b :
  exists d', snd (store_u8 q i b (copying h0 q tr d)) = copying h0 q tr d'.
Proof.
  unfold store_u8, copying. cbn [heap trace]. rewrite lookup_insert_eq.
  destruct ((0 <=? i) && (i <? Z.of_nat (length d))).
  - eexists. cbn [snd]. by rewrite insert_insert_eq.
  - by exists d.
Qed.

(** Whatever the source is, a turn of the copy touches the destination
    block only. *)
Lemma copy_pixel_any src h0 q tr x y w :
  (exists d, w = copying h0 q tr d) ->
  exists d', after (copy_pixel src q y x) w = copying h0 q tr d'.
Proof.
  assert (Hstep : forall i j (k : M unit) d,
    (forall d1, exists d', snd (k (copying h0 q tr d1)) = copying h0 q tr d') ->
    exists d', snd ((b ← load_u8 (data src) i ; store_u8 q j b ;; k)
                      (copying h0 q tr d)) = copying h0 q tr d').
  { intros i j k d Hk. rewrite bind_run.
    pose proof (load_u8_world (data src) i (copying h0 q tr d)) as Hl.
    destruct (load_u8 (data src) i (copying h0 q tr d)) as [[b|s] w1];
      cbn [snd] in Hl; subst w1; [|by exists d].
    rewrite bind_run.
    destruct (store_u8_copying_any h0 q tr d j b) as [d1 Hs].
    destruct (store_u8 q j b (copying h0 q tr d)) as [[[]|s] w1];
      cbn [snd] in Hs; subst w1; [apply Hk | by exists d1]. }
  intros [d ->]. unfold after, copy_pixel.
  apply Hstep. intros d1. apply Hstep. intros d2.
  rewrite bind_run.
  pose proof (load_u8_world (data src) (src_index src x y +i 2)
                (copying h0 q tr d2)) as Hl.
  destruct (load_u8 (data src) (src_index src x y +i 2) (copying h0 q tr d2))
    as [[b|s] w1]; cbn [snd] in Hl; subst w1; [|by exists d2].
  apply store_u8_copying_any.
Qed.

Lemma copy_rows_any src h0 q tr d :
  exists d', after (copy_rows src q) (copying h0 q tr d) = copying h0 q tr d'.
Proof.
  unfold copy_rows, for_int.
  apply (for_loop_preserves (fun w => exists d', w = copying h0 q tr d'));
    [|by exists d].
  intros y w Hw.
  apply (for_loop_preserves (fun w => exists d', w = copying h0 q tr d'));
    [|exact Hw].
  intros x w' Hw'. by apply copy_pixel_any.
Qed.

(** The calls of the preprocessor, and the heap it leaves, for any
    argument: the trace grows by [alloc_events]; a refusal of both requests
    leaves the heap as it was; otherwise the heap gains one block, at a
    fresh address, and the image returned points to it. *)
Lemma crop_resize_224_any env src w :
  (both_refused env w /\
   crop_resize_224 env src w =
   (Done (dst_image NULL),
    {| heap := heap w; trace := trace w ++ alloc_events env w |})) \/
  (allocation_succeeds env w /\
   exists d,
     after (crop_resize_224 env src) w =
     copying (heap w) (fresh_ptr (heap w)) (trace w ++ alloc_events env w) d /\
     (run (crop_resize_224 env src) w = Done (dst_image (fresh_ptr (heap w)))
      \/ exists s, run (crop_resize_224 env src) w = Stop s)).
Proof.
  destruct (first_answer env w) as [f|] eqn:Hf;
    [|destruct (second_answer env w) as [f|] eqn:Hs].
  3: { left. split; [by split|]. by apply crop_run_refused. }
  all: right.
  all: assert (Hok : allocation_succeeds env w)
         by (unfold allocation_succeeds; rewrite ?Hf, ?Hs; eauto).
  all: split; [exact Hok|].
  all: destruct (crop_run_granted env src w Hok) as [g Hrun].
  all: destruct (copy_rows_any src (heap w) (fresh_ptr (heap w))
                   (trace w ++ alloc_events env w) (block_of g DST_SIZE))
         as [d Hd].
  all: exists d; unfold after, run in *; rewrite Hrun, bind_run.
  all: destruct (copy_rows _ _ _) as [[[]|s] w1]; cbn [fst snd] in *; subst w1.
  all: split; [done|]; eauto.
Qed.

(** ** Pictures in the heap *)

Lemma rgb888_image_inv w src :
  rgb888_image w src ->
  picture_dims (width src) (height src) /\
  pix_type src = DL_IMAGE_PIX_TYPE_RGB888 /\
  exists bytes,
    heap w !! data src = Some bytes /\
    Z.of_nat (length bytes) = width src * height src * 3.
Proof.
  intros (HW & HH & Hpt & bytes & Hl & Hlen & Hobj).
  unfold PTRDIFF_MAX in Hobj.
  split; [unfold picture_dims; lia|]. split; [exact Hpt|]. by exists bytes.
Qed.

Lemma rgb888_image_intro w src bytes :
  picture_dims (width src) (height src) ->
  pix_type src = DL_IMAGE_PIX_TYPE_RGB888 ->
  heap w !! data src = Some bytes ->
  Z.of_nat (length bytes) = width src * height src * 3 ->
  rgb888_image w src.
Proof.
  intros (HW & HH & Hmax) Hpt Hl Hlen.
  split; [exact HW|]. split; [exact HH|]. split; [exact Hpt|].
  exists bytes. unfold PTRDIFF_MAX. split; [exact Hl|]. split; [exact Hlen|lia].
Qed.

(** ** The destination, pixel by pixel *)

Lemma copied_pixel sbuf W H d x y :
  picture_dims W H ->
  Z.of_nat (length sbuf) = W * H * 3 ->
  copied sbuf W H (224 * 224) d ->
  0 <= x < 224 -> 0 <= y < 224 ->
  is_Some (pixel d 224 x y) /\
  pixel d 224 x y = pixel sbuf W (nn_sx W H x) (nn_sy W H y).
Proof.
  intros Hdims Hslen [Hlen Hpix] Hx Hy.
  pose proof (nn_sx_bounds _ _ x Hdims Hx) as Hsx.
  pose proof (nn_sy_bounds _ _ y Hdims Hy) as Hsy.
  pose proof (pixel_offset_bounds _ _ _ _ Hsx Hsy) as [Ho1 Ho2].
  assert (Hk : forall k, 0 <= k < 3 ->
            exists b,
              d !! Z.to_nat ((y * 224 + x) * 3 + k) = Some b /\
              sbuf !! Z.to_nat ((nn_sy W H y * W + nn_sx W H x) * 3 + k)
              = Some b).
  { intros k Hk.
    destruct (lookup_lt_is_Some_2 sbuf
                (Z.to_nat ((nn_sy W H y * W + nn_sx W H x) * 3 + k)))
      as [b Hb]; [lia|].
    exists b. split; [|exact Hb]. rewrite <- Hb. apply Hpix; lia. }
  destruct (Hk 0 ltac:(lia)) as (c0 & Hd0 & Hs0).
  destruct (Hk 1 ltac:(lia)) as (c1 & Hd1 & Hs1).
  destruct (Hk 2 ltac:(lia)) as (c2 & Hd2 & Hs2).
  rewrite Z.add_0_r in Hd0, Hs0.
  unfold pixel.
  replace ((0 <=? x) && (x <? 224) && (0 <=? y)) with true by lia.
  replace ((0 <=? nn_sx W H x) && (nn_sx W H x <? W) && (0 <=? nn_sy W H y))
    with true by lia.
  cbv zeta. rewrite Hd0, Hd1, Hd2, Hs0, Hs1, Hs2. split; [by eexists|done].
Qed.

(** C2. For a source picture of positive width and height with RGB888
    data, and when the destination allocation succeeds, the preprocessor
    returns an image of 224 by 224 pixels, RGB888, whose block has
    224 * 224 * 3 bytes, and the pixel (x, y) of the destination is the
    pixel (x0 + (x * crop) / 224, y0 + (y * crop) / 224) of the source,
    byte for byte, with crop = min(width, height), x0 = (width - crop) / 2
    and y0 = (height - crop) / 2 in floor division.  The source block is
    left as it was. *)
Theorem crop_resize_224_nearest_neighbour env w src :
  rgb888_image w src ->
  allocation_succeeds env w ->
  exists dst w' sbytes dbytes,
    crop_resize_224 env src w = (Done dst, w') /\
    data dst <> NULL /\
    width dst = 224 /\ height dst = 224 /\
    pix_type dst = DL_IMAGE_PIX_TYPE_RGB888 /\
    heap w !! data src = Some sbytes /\
    heap w' !! data src = Some sbytes /\
    heap w' !! data dst = Some dbytes /\
    Z.of_nat (length dbytes) = 224 * 224 * 3 /\
    forall x y, 0 <= x < 224 -> 0 <= y < 224 ->
      let crop := Z.min (width src) (height src) in
      let x0 := (width src - crop) / 2 in
      let y0 := (height src - crop) / 2 in
      is_Some (pixel dbytes 224 x y) /\
      pixel dbytes 224 x y =
      pixel sbytes (width src) (x0 + (x * crop) / 224) (y0 + (y * crop) / 224).
Proof.
  intros Himg Hok.
  destruct (rgb888_image_inv _ _ Himg) as (Hdims & Hpt & sbuf & Hsrc & Hslen).
  destruct (crop_resize_224_granted env src w sbuf Hdims Hsrc Hslen Hok)
    as (d & Hrun & Hd).
  pose proof (fresh_ptr_free (heap w)) as Hq.
  eexists _, _, sbuf, d. split; [exact Hrun|].
  cbn [dst_image data width height pix_type copying heap].
  repeat split; try done.
  - apply fresh_ptr_not_null.
  - rewrite lookup_insert_ne by congruence. exact Hsrc.
  - apply lookup_insert_eq.
  - by destruct Hd.
  - by apply (copied_pixel sbuf (width src) (height src) d x y).
  - by apply (copied_pixel sbuf (width src) (height src) d x y).
Qed.

Lemma crop_resize_224_nearest_neighbour_witness :
  rgb888_image demo_world demo_src /\
  allocation_succeeds (demo_env demo_decoded None (Some zeros) []) demo_world /\
  exists dst w' sbytes dbytes,
    crop_resize_224 (demo_env demo_decoded None (Some zeros) []) demo_src
      demo_world = (Done dst, w') /\
    data dst <> NULL /\
    width dst = 224 /\ height dst = 224 /\
    pix_type dst = DL_IMAGE_PIX_TYPE_RGB888 /\
    heap demo_world !! data demo_src = Some sbytes /\
    heap w' !! data demo_src = Some sbytes /\
    heap w' !! data dst = Some dbytes /\
    Z.of_nat (length dbytes) = 224 * 224 * 3 /\
    forall x y, 0 <= x < 224 -> 0 <= y < 224 ->
      let crop := Z.min (width demo_src) (height demo_src) in
      let x0 := (width demo_src - crop) / 2 in
      let y0 := (height demo_src - crop) / 2 in
      is_Some (pixel dbytes 224 x y) /\
      pixel dbytes 224 x y =
      pixel sbytes (width demo_src)
        (x0 + (x * crop) / 224) (y0 + (y * crop) / 224).
Proof.
  assert (H1 : rgb888_image demo_world demo_src).
  { repeat split; try (cbn; lia).
    exists demo_pixels. repeat split. unfold PTRDIFF_MAX, Int.INT_MAX. cbn. lia. }
  assert (H2 : allocation_succeeds
                 (demo_env demo_decoded None (Some zeros) []) demo_world).
  { right. exists zeros. reflexivity. }
  split; [exact H1|]. split; [exact H2|].
  exact (crop_resize_224_nearest_neighbour _ _ _ H1 H2).
Defined.

(** The preprocessor returns on every picture, whatever the allocator
    answers. *)
Lemma crop_resize_224_returns env w src :
  rgb888_image w src -> exists dst, run (crop_resize_224 env src) w = Done dst.
Proof.
  intros Himg.
  destruct (rgb888_image_inv _ _ Himg) as (Hdims & Hpt & sbuf & Hsrc & Hslen).
  destruct (crop_resize_224_any env src w) as [[_ Hrun] | [Hok _]].
  - unfold run. rewrite Hrun. by eexists.
  - destruct (crop_resize_224_granted env src w sbuf Hdims Hsrc Hslen Hok)
      as (d & Hrun & _).
    unfold run. rewrite Hrun. by eexists.
Qed.

(** C3. For a source picture of width and height at least 1, the crop
    square the preprocessor computes lies inside the source
    (0 <= x0, x0 + crop <= width, 0 <= y0, y0 + crop <= height); every
    index [sidx + 0 .. sidx + 2] the sampling loop reads lies inside the
    source block of width * height * 3 bytes; and the preprocessor ends
    without an access outside a block, whatever the allocator answers. *)
Theorem crop_resize_224_reads_inside_source env w src :
  rgb888_image w src ->
  (0 <= crop_x0 src /\ crop_x0 src + crop_side src <= width src /\
   0 <= crop_y0 src /\ crop_y0 src + crop_side src <= height src) /\
  (forall x y k, 0 <= x < 224 -> 0 <= y < 224 -> 0 <= k < 3 ->
     0 <= src_index src x y +i k < width src * height src * 3) /\
  (exists sbytes,
     heap w !! data src = Some sbytes /\
     Z.of_nat (length sbytes) = width src * height src * 3) /\
  exists dst, run (crop_resize_224 env src) w = Done dst.
Proof.
  intros Himg.
  destruct (rgb888_image_inv _ _ Himg) as (Hdims & Hpt & sbuf & Hsrc & Hslen).
  split; [|split; [|split]].
  - rewrite crop_x0_exact, crop_y0_exact, crop_side_min by done.
    pose proof (nn_x0_bounds _ _ Hdims). pose proof (nn_y0_bounds _ _ Hdims).
    lia.
  - intros x y k Hx Hy Hk.
    pose proof (nn_sx_bounds _ _ x Hdims Hx) as Hsx.
    pose proof (nn_sy_bounds _ _ y Hdims Hy) as Hsy.
    pose proof (pixel_offset_bounds _ _ _ _ Hsx Hsy) as [Ho1 Ho2].
    destruct Hdims as (HW & HH & Hmax). unfold Int.INT_MAX in Hmax.
    rewrite src_index_exact by done.
    rewrite add_exact by (unfold Int.in_range, Int.INT_MIN, Int.INT_MAX; lia).
    lia.
  - by exists sbuf.
  - by apply crop_resize_224_returns.
Qed.

Lemma crop_resize_224_reads_inside_source_witness :
  rgb888_image demo_world demo_src /\
  (0 <= crop_x0 demo_src /\
   crop_x0 demo_src + crop_side demo_src <= width demo_src /\
   0 <= crop_y0 demo_src /\
   crop_y0 demo_src + crop_side demo_src <= height demo_src) /\
  (forall x y k, 0 <= x < 224 -> 0 <= y < 224 -> 0 <= k < 3 ->
     0 <= src_index demo_src x y +i k
     < width demo_src * height demo_src * 3) /\
  (exists sbytes,
     heap demo_world !! data demo_src = Some sbytes /\
     Z.of_nat (length sbytes) = width demo_src * height demo_src * 3) /\
  exists dst,
    run (crop_resize_224 (demo_env demo_decoded None None []) demo_src)
      demo_world = Done dst.
Proof.
  assert (H1 : rgb888_image demo_world demo_src).
  { repeat split; try (cbn; lia).
    exists demo_pixels. repeat split. unfold PTRDIFF_MAX, Int.INT_MAX. cbn. lia. }
  split; [exact H1|].
  exact (crop_resize_224_reads_inside_source _ _ _ H1).
Defined.

(** ** The destination as a whole *)

(** Every byte offset of the destination is a channel of a pixel. *)
Lemma dst_offset_split (i : nat) :
  Z.of_nat i < DST_SIZE ->
  exists x y k,
    0 <= x < 224 /\ 0 <= y < 224 /\ 0 <= k < 3 /\
    i = Z.to_nat ((y * 224 + x) * 3 + k).
Proof.
  unfold DST_SIZE. intros Hi.
  set (j := Z.of_nat i) in *. set (n := j / 3).
  exists (n mod 224), (n / 224), (j mod 3).
  pose proof (Z.div_mod j 3 ltac:(lia)).
  pose proof (Z.mod_pos_bound j 3 ltac:(lia)).
  pose proof (Z.div_mod n 224 ltac:(lia)).
  pose proof (Z.mod_pos_bound n 224 ltac:(lia)).
  fold n in H. assert (0 <= j) by (unfold j; lia).
  repeat split; try lia.
Qed.

(** The copy leaves nothing of what the block held before. *)
Lemma copied_determined sbuf W H d1 d2 :
  copied sbuf W H (224 * 224) d1 -> copied sbuf W H (224 * 224) d2 -> d1 = d2.
Proof.
  intros [Hl1 Hp1] [Hl2 Hp2]. apply list_eq. intros i.
  destruct (Z.lt_ge_cases (Z.of_nat i) DST_SIZE) as [Hi|Hi].
  - destruct (dst_offset_split i Hi) as (x & y & k & Hx & Hy & Hk & ->).
    rewrite Hp1, Hp2 by lia. reflexivity.
  - rewrite !lookup_ge_None_2 by lia. reflexivity.
Qed.

Lemma copied_identity sbuf :
  Z.of_nat (length sbuf) = 224 * 224 * 3 ->
  copied sbuf 224 224 (224 * 224) sbuf.
Proof.
  intros Hlen. split; [exact Hlen|]. intros x y k Hx Hy Hn Hk.
  unfold nn_sx, nn_sy, nn_x0, nn_y0, nn_crop.
  rewrite Z.min_id, Z.sub_diag. change (0 / 2) with 0.
  by rewrite !Z.div_mul by lia.
Qed.

(** C8. For a source picture of 224 by 224 pixels, when the allocation
    succeeds, the block of the image the preprocessor returns holds the
    bytes of the source block, one for one. *)
Theorem crop_resize_224_identity env w src :
  rgb888_image w src ->
  width src = 224 -> height src = 224 ->
  allocation_succeeds env w ->
  exists dst w' bytes,
    crop_resize_224 env src w = (Done dst, w') /\
    data dst <> NULL /\
    heap w !! data src = Some bytes /\
    heap w' !! data dst = Some bytes.
Proof.
  intros Himg HW HH Hok.
  destruct (rgb888_image_inv _ _ Himg) as (Hdims & Hpt & sbuf & Hsrc & Hslen).
  destruct (crop_resize_224_granted env src w sbuf Hdims Hsrc Hslen Hok)
    as (d & Hrun & Hd).
  rewrite HW, HH in Hd, Hslen.
  rewrite (copied_determined _ _ _ _ _ Hd (copied_identity sbuf Hslen)) in Hrun.
  eexists _, _, sbuf. split; [exact Hrun|].
  cbn [dst_image data copying heap]. split; [apply fresh_ptr_not_null|].
  split; [exact Hsrc|]. apply lookup_insert_eq.
Qed.

(** C9. Two runs of the preprocessor, in any two worlds and with any two
    allocators, on source images of the same dimensions and pixel layout
    whose blocks hold the same bytes: when the allocation succeeds in
    both, both return, and the two destination blocks hold the same
    bytes. *)
Theorem crop_resize_224_deterministic env1 env2 w1 w2 src1 src2 :
  rgb888_image w1 src1 ->
  width src1 = width src2 -> height src1 = height src2 ->
  pix_type src1 = pix_type src2 ->
  heap w1 !! data src1 = heap w2 !! data src2 ->
  allocation_succeeds env1 w1 -> allocation_succeeds env2 w2 ->
  exists dst1 w1' dst2 w2' bytes,
    crop_resize_224 env1 src1 w1 = (Done dst1, w1') /\
    crop_resize_224 env2 src2 w2 = (Done dst2, w2') /\
    heap w1' !! data dst1 = Some bytes /\
    heap w2' !! data dst2 = Some bytes.
Proof.
  intros Himg HW HH HP Hsame Hok1 Hok2.
  destruct (rgb888_image_inv _ _ Himg) as (Hdims & Hpt & sbuf & Hsrc & Hslen).
  destruct (crop_resize_224_granted env1 src1 w1 sbuf Hdims Hsrc Hslen Hok1)
    as (d1 & Hrun1 & Hd1).
  rewrite Hsrc in Hsame. symmetry in Hsame.
  rewrite HW, HH in Hdims, Hslen, Hd1.
  destruct (crop_resize_224_granted env2 src2 w2 sbuf Hdims Hsame Hslen Hok2)
    as (d2 & Hrun2 & Hd2).
  eexists _, _, _, _, d1. split; [exact Hrun1|]. split; [exact Hrun2|].
  cbn [dst_image data copying heap]. split; [apply lookup_insert_eq|].
  rewrite (copied_determined _ _ _ _ _ Hd1 Hd2). apply lookup_insert_eq.
Qed.

Lemma crop_resize_224_identity_witness :
  rgb888_image square_world square_src /\
  allocation_succeeds (demo_env demo_decoded (Some zeros) None []) square_world
  /\
  exists dst w' bytes,
    crop_resize_224 (demo_env demo_decoded (Some zeros) None []) square_src
      square_world = (Done dst, w') /\
    data dst <> NULL /\
    heap square_world !! data square_src = Some bytes /\
    heap w' !! data dst = Some bytes.
Proof.
  assert (H1 : rgb888_image square_world square_src).
  { assert (Hlen : Z.of_nat (length square_pixels) = DST_SIZE)
      by (apply length_block_of; unfold DST_SIZE; lia).
    repeat split; try (cbn; lia).
    exists square_pixels. split; [reflexivity|]. rewrite Hlen.
    split; [reflexivity|]. unfold PTRDIFF_MAX, Int.INT_MAX, DST_SIZE. lia. }
  assert (H2 : allocation_succeeds
                 (demo_env demo_decoded (Some zeros) None []) square_world).
  { left. exists zeros. reflexivity. }
  split; [exact H1|]. split; [exact H2|].
  exact (crop_resize_224_identity _ _ _ H1 eq_refl eq_refl H2).
Defined.

Lemma crop_resize_224_deterministic_witness :
  rgb888_image demo_world demo_src /\
  heap demo_world !! data demo_src = heap demo_world' !! data demo_src' /\
  exists dst1 w1' dst2 w2' bytes,
    crop_resize_224 (demo_env demo_decoded (Some zeros) None []) demo_src
      demo_world = (Done dst1, w1') /\
    crop_resize_224 (demo_env demo_decoded None (Some ones) []) demo_src'
      demo_world' = (Done dst2, w2') /\
    heap w1' !! data dst1 = Some bytes /\
    heap w2' !! data dst2 = Some bytes.
Proof.
  assert (H1 : rgb888_image demo_world demo_src).
  { repeat split; try (cbn; lia).
    exists demo_pixels. repeat split. unfold PTRDIFF_MAX, Int.INT_MAX. cbn. lia. }
  assert (H2 : heap demo_world !! data demo_src
               = heap demo_world' !! data demo_src') by reflexivity.
  assert (H3 : allocation_succeeds
                 (demo_env demo_decoded (Some zeros) None []) demo_world).
  { left. exists zeros. reflexivity. }
  assert (H4 : allocation_succeeds
                 (demo_env demo_decoded None (Some ones) []) demo_world').
  { right. exists ones. reflexivity. }
  split; [exact H1|]. split; [exact H2|].
  exact (crop_resize_224_deterministic _ _ demo_world demo_world'
           demo_src demo_src' H1 eq_refl eq_refl eq_refl H2 H3 H4).
Defined.

(** ** The stages of the loop *)

Lemma emit_run e w : emit e w = (Done tt, logged w [e]).
Proof. reflexivity. Qed.

Lemma logged_logged w a b : logged (logged w a) b = logged w (a ++ b).
Proof. unfold logged. cbn [heap trace]. by rewrite app_assoc. Qed.

Lemma released_logged w p a b :
  released (logged w a) p b = released w p (a ++ b).
Proof. unfold released, logged. cbn [heap trace]. by rewrite app_assoc. Qed.

Lemma logged_released w p a b :
  logged (released w p a) b = released w p (a ++ b).
Proof. unfold released, logged. cbn [heap trace]. by rewrite app_assoc. Qed.

Lemma heap_caps_free_live p w blk :
  p <> NULL -> heap w !! p = Some blk ->
  heap_caps_free p w = (Done tt, released w p [EvFree p]).
Proof.
  intros Hp Hl. unfold heap_caps_free.
  by rewrite (is_null_false _ Hp), Hl.
Qed.

Lemma for_each_log frame cls w :
  for_each cls (fun res =>
    ESP_LOGI TAG "[%d] Gesture: %s  score=%.2f"
      [ArgInt frame; ArgStr (cat_name res); ArgFloat (score res)]) w
  = (Done tt, logged w (map (gesture_log frame) cls)).
Proof.
  revert w. induction cls as [|res cls IH]; intros w.
  - unfold logged. cbn. by rewrite app_nil_r; destruct w.
  - cbn [for_each]. rewrite bind_run. unfold ESP_LOGI at 1.
    rewrite emit_run, IH, logged_logged. reflexivity.
Qed.

Lemma detect_stage_empty env frame img w blk :
  data img <> NULL -> heap w !! data img = Some blk ->
  detect_answer env w img = [] ->
  detect_stage env frame img w =
  (Done tt,
   released w (data img)
     [EvDetect img []; no_hand_log frame; EvFree (data img); EvDelay 300]).
Proof.
  intros Hp Hl Hd. unfold detect_stage, hand_detect_run.
  rewrite bind_run, Hd. fold (logged w [EvDetect img []]).
  unfold ESP_LOGW, vTaskDelay_ms.
  rewrite bind_run, emit_run, logged_logged, bind_run.
  rewrite (heap_caps_free_live _ _ blk Hp) by exact Hl.
  rewrite emit_run, released_logged, logged_released. reflexivity.
Qed.

Lemma detect_stage_found env frame img w blk :
  data img <> NULL -> heap w !! data img = Some blk ->
  detect_answer env w img <> [] ->
  exists dets cls,
    dets <> [] /\
    detect_stage env frame img w =
    (Done tt,
     released w (data img)
       ([EvDetect img dets; EvRecognize img dets cls] ++
        map (gesture_log frame) cls ++ [EvFree (data img); EvDelay 2000])).
Proof.
  intros Hp Hl Hd.
  exists (detect_answer env w img),
         (recognize_answer env (logged w [EvDetect img (detect_answer env w img)])
            img (detect_answer env w img)).
  split; [exact Hd|].
  unfold detect_stage, hand_detect_run. rewrite bind_run.
  fold (logged w [EvDetect img (detect_answer env w img)]).
  destruct (detect_answer env w img) as [|d ds] eqn:Hdets; [done|].
  unfold classify_stage, gesture_recognize. rewrite bind_run.
  set (cls := recognize_answer env _ img (d :: ds)).
  fold (logged (logged w [EvDetect img (d :: ds)])
          [EvRecognize img (d :: ds) cls]).
  rewrite logged_logged, bind_run, for_each_log, logged_logged, bind_run.
  rewrite (heap_caps_free_live _ _ blk Hp) by exact Hl.
  unfold vTaskDelay_ms.
  rewrite emit_run, released_logged, logged_released.
  by rewrite <- !app_assoc.
Qed.

Lemma alloc_events_refused env w :
  both_refused env w -> alloc_events env w = refusal.
Proof. intros [Hf Hs]. unfold alloc_events. by rewrite Hf, Hs. Qed.

Lemma alloc_events_grant env w :
  allocation_succeeds env w -> grant (fresh_ptr (heap w)) (alloc_events env w).
Proof.
  intros Hok. unfold alloc_events, grant.
  destruct (first_answer env w) as [f|] eqn:Hf; [by left|].
  destruct Hok as [[? ?] | [f Hs]]; [congruence|]. rewrite Hs. by right.
Qed.

Lemma dispatch_stage_null env frame img w :
  data img = NULL ->
  dispatch_stage env frame img w = (Done tt, logged w [EvDelay 100]).
Proof. intros Hn. unfold dispatch_stage. rewrite Hn. reflexivity. Qed.

Lemma dispatch_stage_not_null env frame img w :
  data img <> NULL ->
  dispatch_stage env frame img w = detect_stage env frame img w.
Proof.
  intros Hn. unfold dispatch_stage. by rewrite (is_null_false _ Hn).
Qed.

(** The ways the stages after a successful decode end. *)
Lemma preprocess_stage_cases env frame rgb w px :
  data rgb <> NULL -> heap w !! data rgb = Some px ->
  let r := preprocess_stage env frame rgb w in
  let q := fresh_ptr (heap w) in
  (fst r = Done tt /\ heap (snd r) = delete (data rgb) (heap w) /\
   trace (snd r) = trace w ++ refusal ++ [EvFree (data rgb); EvDelay 100])
  \/
  (exists s cevs, grant q cevs /\ fst r = Stop s /\
     trace (snd r) = trace w ++ cevs)
  \/
  (exists cevs, grant q cevs /\
     fst r = Done tt /\ heap (snd r) = delete (data rgb) (heap w) /\
     trace (snd r) =
     trace w ++ cevs ++
     [EvFree (data rgb); EvDetect (dst_image q) []; no_hand_log frame;
      EvFree q; EvDelay 300])
  \/
  (exists cevs dets cls, grant q cevs /\ dets <> [] /\
     fst r = Done tt /\ heap (snd r) = delete (data rgb) (heap w) /\
     trace (snd r) =
     trace w ++ cevs ++
     [EvFree (data rgb); EvDetect (dst_image q) dets;
      EvRecognize (dst_image q) dets cls] ++
     map (gesture_log frame) cls ++ [EvFree q; EvDelay 2000]).
Proof.
  intros Hp Hl r q. subst r. unfold preprocess_stage. rewrite bind_run.
  destruct (crop_resize_224_any env rgb w)
    as [[Href Hrun] | (Hok & d & Hafter & Hres)].
  - (* both requests refused *)
    left. rewrite Hrun, (alloc_events_refused _ _ Href).
    fold (logged w refusal). rewrite bind_run.
    rewrite (heap_caps_free_live _ _ px Hp) by exact Hl.
    rewrite dispatch_stage_null by reflexivity.
    rewrite released_logged, logged_released. cbn [fst snd released heap trace].
    by rewrite <- !app_assoc.
  - right. pose proof (alloc_events_grant _ _ Hok) as Hgrant. fold q in Hgrant.
    unfold after, run in *.
    destruct (crop_resize_224 env rgb w) as [[img|s] w4] eqn:Hrun;
      cbn [fst snd] in *; subst w4.
    2: { left. exists s, (alloc_events env w). by repeat split. }
    right. destruct Hres as [Himg | [s Hs]]; [|done].
    injection Himg as ->. fold q.
    assert (Hq : heap w !! q = None) by apply fresh_ptr_free.
    assert (Hpq : data rgb <> q) by congruence.
    assert (Hqn : q <> NULL) by apply fresh_ptr_not_null.
    set (w4 := copying (heap w) q (trace w ++ alloc_events env w) d).
    assert (Hl4 : heap w4 !! data rgb = Some px)
      by (unfold w4, copying; cbn [heap]; by rewrite lookup_insert_ne).
    rewrite bind_run, (heap_caps_free_live _ _ px Hp) by exact Hl4.
    rewrite dispatch_stage_not_null by exact Hqn.
    set (w5 := released w4 (data rgb) [EvFree (data rgb)]).
    assert (Hl5 : heap w5 !! data (dst_image q) = Some d).
    { unfold w5, released, w4, copying. cbn [heap dst_image data].
      rewrite lookup_delete_ne by exact Hpq. apply lookup_insert_eq. }
    assert (Hheap : delete q (heap w5) = delete (data rgb) (heap w)).
    { unfold w5, released, w4, copying. cbn [heap].
      rewrite delete_delete. by rewrite delete_insert_id. }
    assert (Htr : trace w5 = trace w ++ alloc_events env w ++ [EvFree (data rgb)]).
    { unfold w5, released, w4, copying. cbn [trace]. by rewrite app_assoc. }
    destruct (detect_answer env w5 (dst_image q)) as [|dt dts] eqn:Hdet.
    + left. exists (alloc_events env w). split; [exact Hgrant|].
      rewrite (detect_stage_empty env frame (dst_image q) w5 d Hqn Hl5 Hdet).
      cbn [fst snd released heap trace dst_image data].
      rewrite Hheap, Htr. repeat split. by rewrite <- !app_assoc.
    + right.
      destruct (detect_stage_found env frame (dst_image q) w5 d Hqn Hl5)
        as (dets & cls & Hne & Hst); [by rewrite Hdet|].
      exists (alloc_events env w), dets, cls.
      split; [exact Hgrant|]. split; [exact Hne|].
      rewrite Hst. cbn [fst snd released heap trace dst_image data].
      rewrite Hheap, Htr. repeat split. by rewrite <- !app_assoc.
Qed.

(** ** One turn of the loop *)

(** The part of a turn up to the test of the decoder's result: the image
    has the dimensions the decoder answers, and its block, if any, is new. *)
Lemma iteration_front env frame w fb :
  frame_answer env w = Some fb ->
  let dec := decode_answer env (logged w [EvFbGet (Some fb)])
               {| jpeg_data := buf fb; jpeg_data_len := len fb |}
               DL_IMAGE_PIX_TYPE_RGB888 in
  exists rgb w3,
    trace w3 = trace w ++ front fb rgb /\
    width rgb = dec_width dec /\ height rgb = dec_height dec /\
    pix_type rgb = DL_IMAGE_PIX_TYPE_RGB888 /\
    match dec_pixels dec with
    | None => data rgb = NULL /\ heap w3 = heap w
    | Some px =>
        data rgb = fresh_ptr (heap w) /\
        heap w3 = <[data rgb := px]> (heap w)
    end /\
    app_main_iteration env frame w =
    (if decode_failed rgb then
       ESP_LOGE TAG "JPEG decode failed" [] ;;
       (if negb (is_null (data rgb)) then heap_caps_free (data rgb)
        else mret tt) ;;
       mret (frame +i 1)
     else
       preprocess_stage env (frame +i 1) rgb ;;
       mret (frame +i 1)) w3.
Proof.
  intros Hfb dec. unfold app_main_iteration, esp_camera_fb_get.
  rewrite bind_run, Hfb. fold (logged w [EvFbGet (Some fb)]).
  set (w1 := logged w [EvFbGet (Some fb)]) in *.
  set (jpeg := {| jpeg_data := buf fb; jpeg_data_len := len fb |}) in *.
  rewrite bind_run. unfold sw_decode_jpeg, esp_camera_fb_return.
  fold dec. destruct (dec_pixels dec) as [px|].
  - set (rgb := {| data := fresh_ptr (heap w1) |}).
    exists rgb.
    exists (logged {| heap := <[fresh_ptr (heap w1) := px]> (heap w1);
                      trace := trace w1 ++
                        [EvDecode jpeg DL_IMAGE_PIX_TYPE_RGB888 rgb] |}
              [EvFbReturn fb]).
    split; [unfold w1, logged, front; cbn [trace heap];
            by rewrite <- !app_assoc|].
    do 3 (split; [reflexivity|]).
    split; [|by rewrite bind_run, emit_run].
    split; reflexivity.
  - set (rgb := {| data := NULL |}).
    exists rgb.
    exists (logged {| heap := heap w1;
                      trace := trace w1 ++
                        [EvDecode jpeg DL_IMAGE_PIX_TYPE_RGB888 rgb] |}
              [EvFbReturn fb]).
    split; [unfold w1, logged, front; cbn [trace heap];
            by rewrite <- !app_assoc|].
    do 3 (split; [reflexivity|]).
    split; [done|by rewrite bind_run, emit_run].
Qed.

(** Every turn of the loop ends in one of the six ways of [exit_path];
    a turn that ends leaves the heap as it found it. *)
Lemma app_main_iteration_exit env frame w :
  exit_path (heap w) (frame +i 1) (frame_answer env w)
    (run (app_main_iteration env frame) w)
    (new_events w (after (app_main_iteration env frame) w)) /\
  (forall a, run (app_main_iteration env frame) w = Done a ->
     heap (after (app_main_iteration env frame) w) = heap w).
Proof.
  destruct (frame_answer env w) as [fb|] eqn:Hfb.
  2: { assert (Hrun : app_main_iteration env frame w =
         (Done (frame +i 1),
          logged w [EvFbGet None; EvLog LOG_ERROR TAG "Camera capture failed" [];
                    EvDelay 100])).
       { unfold app_main_iteration, esp_camera_fb_get. rewrite bind_run, Hfb.
         fold (logged w [EvFbGet None]).
         unfold ESP_LOGE, vTaskDelay_ms.
         by rewrite bind_run, emit_run, bind_run, emit_run, !logged_logged. }
       unfold run, after. rewrite Hrun. cbn [fst snd].
       split; [|done].
       erewrite new_events_app by (cbn [logged trace]; reflexivity).
       constructor. }
  destruct (iteration_front env frame w fb Hfb)
    as (rgb & w3 & Htr & _ & _ & _ & Hheap & Hrun).
  unfold run, after. rewrite Hrun. clear Hrun.
  destruct (decode_failed rgb) eqn:Hdec.
  - (* the decoder failed *)
    unfold ESP_LOGE. rewrite bind_run, emit_run, bind_run.
    destruct (dec_pixels _) as [px|];
      [destruct Hheap as (Haddr & Hh) | destruct Hheap as [Hnull Hh]].
    1: assert (Hnn : data rgb <> NULL)
         by (rewrite Haddr; apply fresh_ptr_not_null).
    1: assert (Hfree : heap w !! data rgb = None)
         by (rewrite Haddr; apply fresh_ptr_free).
    2: {
      rewrite Hnull. change (negb (is_null NULL)) with false.
      cbn [mret M_ret fst snd].
      split; [|by intros].
      erewrite new_events_app
        by (cbn [logged trace]; rewrite Htr, <- app_assoc; reflexivity).
      pose proof (exit_decode_failed (heap w) (frame +i 1) fb rgb Hdec) as Hp.
      rewrite Hnull in Hp. apply Hp. done. }
    1: {
      rewrite (is_null_false _ Hnn). cbn [negb].
      rewrite (heap_caps_free_live _ _ px Hnn)
        by (cbn [logged heap]; rewrite Hh; apply lookup_insert_eq).
      cbn [mret M_ret fst snd]. split.
      * erewrite new_events_app
          by (cbn [released logged trace];
              rewrite Htr, <- !app_assoc; reflexivity).
        pose proof (exit_decode_failed (heap w) (frame +i 1) fb rgb Hdec) as Hp.
        rewrite (is_null_false _ Hnn) in Hp. apply Hp. done.
      * intros _ _. cbn [released logged heap]. rewrite Hh.
        by apply delete_insert_id. }
  - (* the decoder succeeded *)
    assert (Hnn : data rgb <> NULL).
    { intros Hn. unfold decode_failed in Hdec. rewrite Hn in Hdec. done. }
    destruct (dec_pixels _) as [px|];
      [destruct Hheap as (Haddr & Hh) | by destruct Hheap].
    assert (Hfree : heap w !! data rgb = None)
      by (rewrite Haddr; apply fresh_ptr_free).
    assert (Hl3 : heap w3 !! data rgb = Some px)
      by (rewrite Hh; apply lookup_insert_eq).
    assert (Hq : heap w !! fresh_ptr (heap w3) = None).
    { pose proof (fresh_ptr_free (heap w3)) as Hf.
      set (q := fresh_ptr (heap w3)) in *. rewrite Hh in Hf.
      by apply lookup_insert_None in Hf as [Hf _]. }
    pose proof (fresh_ptr_not_null (heap w3)) as Hqn.
    assert (Hback : delete (data rgb) (heap w3) = heap w)
      by (rewrite Hh; by apply delete_insert_id).
    rewrite bind_run.
    destruct (preprocess_stage_cases env (frame +i 1) rgb w3 px Hnn Hl3)
      as [(Hr & Hhp & Htrp)
         | [(s & cevs & Hg & Hr & Htrp)
           | [(cevs & Hg & Hr & Hhp & Htrp)
             | (cevs & dets & cls & Hg & Hne & Hr & Hhp & Htrp)]]];
      destruct (preprocess_stage env (frame +i 1) rgb w3) as [[[]|s'] w'];
      cbn [mret M_ret fst snd] in *; try discriminate.
    + split; [|by intros; rewrite Hhp].
      erewrite new_events_app by (rewrite Htrp, Htr, <- app_assoc; reflexivity).
      by constructor.
    + injection Hr as ->. split; [|by intros].
      erewrite new_events_app by (rewrite Htrp, Htr, <- app_assoc; reflexivity).
      by econstructor.
    + split; [|by intros; rewrite Hhp].
      erewrite new_events_app by (rewrite Htrp, Htr, <- app_assoc; reflexivity).
      by constructor.
    + split; [|by intros; rewrite Hhp].
      erewrite new_events_app by (rewrite Htrp, Htr, <- app_assoc; reflexivity).
      by constructor.
Qed.

Lemma app_main_loop_step env n frame w a :
  run (app_main_iteration env frame) w = Done a ->
  app_main_loop env (S n) frame w =
  app_main_loop env n a (after (app_main_iteration env frame) w).
Proof.
  unfold run, after. intros Hrun. cbn [app_main_loop]. rewrite bind_run.
  destruct (app_main_iteration env frame w) as [o w'].
  cbn [fst snd] in *. by rewrite Hrun.
Qed.

(** ** Reading the calls of a turn *)

Lemma omap_gesture_log {B} (f : event -> option B) frame cls :
  (forall l t fm a, f (EvLog l t fm a) = None) ->
  omap f (map (gesture_log frame) cls) = [].
Proof.
  intros Hf. induction cls as [|res cls IH]; [done|].
  cbn [map omap list_omap]. unfold gesture_log at 1. rewrite Hf. exact IH.
Qed.

(** Unfolds the projections of a trace over the calls of an exit path. *)
Ltac read_events :=
  unfold total_delay, fb_returns, delays, detect_calls, recognize_calls, frees,
    malloc_calls, decoded_images, detections, front, refusal, no_hand_log
    in *;
  rewrite ?omap_app in *;
  rewrite ?omap_gesture_log in * by done;
  cbn [omap list_omap app foldr] in *.

(** Case analysis on the way a turn ends; [Hheap] says the heap is back. *)
Ltac turn_cases env frame w Hheap :=
  let Hpath := fresh "Hpath" in
  let acq := fresh "acq" in
  let r := fresh "r" in
  let evs := fresh "evs" in
  destruct (app_main_iteration_exit env frame w) as [Hpath Hheap];
  remember (frame_answer env w) as acq eqn:Hacq;
  remember (run (app_main_iteration env frame) w) as r eqn:Hr;
  remember (new_events w (after (app_main_iteration env frame) w))
    as evs eqn:Hevs;
  destruct Hpath as
    [ | tfb trgb Hdec Hfresh
      | tfb trgb Hdec Hfresh
      | tfb trgb tq tcevs ts Hdec [-> | ->] Hqn
      | tfb trgb tq tcevs Hdec Hfresh [-> | ->] Hqn Hq
      | tfb trgb tq tcevs tdets tcls Hdec Hfresh [-> | ->] Hqn Hq Hdets ].

(** C1. In every turn of the loop in which the camera hands out a frame,
    the frame is handed back to the driver exactly once before the turn
    ends, whichever way the turn ends (decode failure, allocation failure,
    no hand, a classified hand, or a stop); and so is it in every step of
    the warm-up. *)
Theorem frame_returned_exactly_once env w fb :
  frame_answer env w = Some fb ->
  (forall frame,
     fb_returns (new_events w (after (app_main_iteration env frame) w)) = [fb])
  /\
  (forall i,
     run (warm_up_step env i) w = Done tt /\
     fb_returns (new_events w (after (warm_up_step env i) w)) = [fb]).
Proof.
  intros Hfb. split.
  - intros frame.
    turn_cases env frame w Hheap; try discriminate; injection Hfb as ->.
    all: try (destruct (is_null (data trgb))).
    all: read_events; reflexivity.
  - intros i.
    assert (Hrun : warm_up_step env i w =
              (Done tt, logged w [EvFbGet (Some fb); EvFbReturn fb; EvDelay 50])).
    { unfold warm_up_step, esp_camera_fb_get. rewrite bind_run, Hfb.
      fold (logged w [EvFbGet (Some fb)]).
      unfold esp_camera_fb_return, vTaskDelay_ms.
      by rewrite bind_run, emit_run, emit_run, !logged_logged. }
    unfold run, after. rewrite Hrun. cbn [fst snd]. split; [done|].
    erewrite new_events_app by (cbn [logged trace]; reflexivity).
    reflexivity.
Qed.

(** ** Turns that reach the Localizer *)

Lemma preprocess_stage_granted env frame rgb w :
  rgb888_image w rgb -> data rgb <> NULL -> allocation_succeeds env w ->
  exists d,
    preprocess_stage env frame rgb w =
    detect_stage env frame (dst_image (fresh_ptr (heap w)))
      {| heap := delete (data rgb) (<[fresh_ptr (heap w) := d]> (heap w));
         trace := trace w ++ alloc_events env w ++ [EvFree (data rgb)] |}.
Proof.
  intros Himg Hnn Hok.
  destruct (rgb888_image_inv _ _ Himg) as (Hdims & Hpt & px & Hl & Hlen).
  destruct (crop_resize_224_granted env rgb w px Hdims Hl Hlen Hok)
    as (d & Hrun & _).
  exists d. unfold preprocess_stage. rewrite (bind_done _ _ _ _ _ Hrun).
  pose proof (fresh_ptr_free (heap w)) as Hq.
  rewrite bind_run, (heap_caps_free_live _ _ px Hnn)
    by (unfold copying; cbn [heap]; rewrite lookup_insert_ne by congruence;
        exact Hl).
  rewrite dispatch_stage_not_null by apply fresh_ptr_not_null.
  unfold released, copying. cbn [heap trace]. by rewrite <- app_assoc.
Qed.

(** A turn in which the camera has a frame, the decoder returns a picture
    and the allocator grants a block goes on to the Localizer. *)
Lemma turn_reaches_localizer env frame w fb px :
  frame_answer env w = Some fb ->
  let dec := decode_answer env (logged w [EvFbGet (Some fb)])
               {| jpeg_data := buf fb; jpeg_data_len := len fb |}
               DL_IMAGE_PIX_TYPE_RGB888 in
  dec_pixels dec = Some px ->
  picture_dims (dec_width dec) (dec_height dec) ->
  Z.of_nat (length px) = dec_width dec * dec_height dec * 3 ->
  (forall w', allocation_succeeds env w') ->
  exists rgb q cevs w5 d,
    data rgb = fresh_ptr (heap w) /\
    q = fresh_ptr (<[data rgb := px]> (heap w)) /\
    grant q cevs /\ q <> NULL /\
    trace w5 = trace w ++ front fb rgb ++ cevs ++ [EvFree (data rgb)] /\
    heap w5 !! q = Some d /\
    app_main_iteration env frame w =
    (detect_stage env (frame +i 1) (dst_image q) ;; mret (frame +i 1)) w5.
Proof.
  intros Hfb dec Hpx Hdims Hlen Hok.
  destruct (iteration_front env frame w fb Hfb)
    as (rgb & w3 & Htr & HW & HH & HP & Hheap & Hrun).
  fold dec in HW, HH, Hheap. rewrite Hpx in Hheap.
  destruct Hheap as (Haddr & Hh).
  assert (Hnn : data rgb <> NULL) by (rewrite Haddr; apply fresh_ptr_not_null).
  assert (Hdec : decode_failed rgb = false).
  { unfold decode_failed. rewrite (is_null_false _ Hnn), HW, HH.
    destruct Hdims as (? & ? & _).
    destruct (Z.leb_spec (dec_width dec) 0); [lia|].
    destruct (Z.leb_spec (dec_height dec) 0); [lia|]. reflexivity. }
  assert (Himg : rgb888_image w3 rgb).
  { apply (rgb888_image_intro _ _ px); rewrite ?HW, ?HH; try done.
    rewrite Hh. apply lookup_insert_eq. }
  destruct (preprocess_stage_granted env (frame +i 1) rgb w3 Himg Hnn (Hok w3))
    as (d & Hpre).
  rewrite Hdec in Hrun.
  eexists rgb, (fresh_ptr (heap w3)), (alloc_events env w3), _, d.
  split; [exact Haddr|]. split; [by rewrite Hh|].
  split; [by apply alloc_events_grant|].
  split; [apply fresh_ptr_not_null|].
  split; [|split; [|rewrite Hrun, bind_run, Hpre; reflexivity]].
  - cbn [trace]. by rewrite Htr, <- !app_assoc.
  - cbn [heap]. rewrite lookup_delete_ne.
    + apply lookup_insert_eq.
    + apply (fresh_ptr_other _ _ px). rewrite Hh. apply lookup_insert_eq.
Qed.

Lemma turn_no_hand env frame w fb px :
  frame_answer env w = Some fb ->
  let dec := decode_answer env (logged w [EvFbGet (Some fb)])
               {| jpeg_data := buf fb; jpeg_data_len := len fb |}
               DL_IMAGE_PIX_TYPE_RGB888 in
  dec_pixels dec = Some px ->
  picture_dims (dec_width dec) (dec_height dec) ->
  Z.of_nat (length px) = dec_width dec * dec_height dec * 3 ->
  (forall w', allocation_succeeds env w') ->
  (forall w' img, detect_answer env w' img = []) ->
  exists rgb q cevs,
    data rgb = fresh_ptr (heap w) /\
    q = fresh_ptr (<[data rgb := px]> (heap w)) /\
    grant q cevs /\
    new_events w (after (app_main_iteration env frame) w) =
    front fb rgb ++ cevs ++
    [EvFree (data rgb); EvDetect (dst_image q) []; no_hand_log (frame +i 1);
     EvFree q; EvDelay 300].
Proof.
  intros Hfb dec Hpx Hdims Hlen Hok Hnone.
  destruct (turn_reaches_localizer env frame w fb px Hfb Hpx Hdims Hlen Hok)
    as (rgb & q & cevs & w5 & d & Ha & Hq & Hg & Hqn & Htr & Hl & Hrun).
  exists rgb, q, cevs. split; [exact Ha|]. split; [exact Hq|]. split; [exact Hg|].
  unfold after. rewrite Hrun, bind_run.
  rewrite (detect_stage_empty env _ (dst_image q) w5 d Hqn Hl (Hnone _ _)).
  cbn [mret M_ret snd]. apply new_events_app.
  cbn [released trace dst_image data]. rewrite Htr. by rewrite <- !app_assoc.
Qed.

Lemma turn_classified env frame w fb px :
  frame_answer env w = Some fb ->
  let dec := decode_answer env (logged w [EvFbGet (Some fb)])
               {| jpeg_data := buf fb; jpeg_data_len := len fb |}
               DL_IMAGE_PIX_TYPE_RGB888 in
  dec_pixels dec = Some px ->
  picture_dims (dec_width dec) (dec_height dec) ->
  Z.of_nat (length px) = dec_width dec * dec_height dec * 3 ->
  (forall w', allocation_succeeds env w') ->
  (forall w' img, detect_answer env w' img <> []) ->
  exists rgb q cevs dets cls,
    data rgb = fresh_ptr (heap w) /\
    q = fresh_ptr (<[data rgb := px]> (heap w)) /\
    grant q cevs /\ dets <> [] /\
    new_events w (after (app_main_iteration env frame) w) =
    front fb rgb ++ cevs ++
    [EvFree (data rgb); EvDetect (dst_image q) dets;
     EvRecognize (dst_image q) dets cls] ++
    map (gesture_log (frame +i 1)) cls ++ [EvFree q; EvDelay 2000].
Proof.
  intros Hfb dec Hpx Hdims Hlen Hok Hsome.
  destruct (turn_reaches_localizer env frame w fb px Hfb Hpx Hdims Hlen Hok)
    as (rgb & q & cevs & w5 & d & Ha & Hq & Hg & Hqn & Htr & Hl & Hrun).
  destruct (detect_stage_found env (frame +i 1) (dst_image q) w5 d Hqn Hl
              (Hsome _ _)) as (dets & cls & Hne & Hst).
  exists rgb, q, cevs, dets, cls. split; [exact Ha|]. split; [exact Hq|]. split; [exact Hg|]. split; [exact Hne|].
  unfold after. rewrite Hrun, bind_run, Hst.
  cbn [mret M_ret snd]. apply new_events_app.
  cbn [released trace dst_image data]. rewrite Htr. by rewrite <- !app_assoc.
Qed.

(** C6. In every turn of the loop in which decoding fails (the decoded
    image has a null data pointer, or a width or a height that is not
    positive), the frame is handed back to the driver, the data of the
    decoded image is freed when there is any, the Localizer is not called,
    and the turn ends normally, so that the loop goes on with the next
    turn.  The heap is then as it was when the turn began. *)
Theorem decode_failure_is_dropped env frame w rgb :
  let w' := after (app_main_iteration env frame) w in
  let evs := new_events w w' in
  rgb ∈ decoded_images evs ->
  decode_failed rgb = true ->
  (exists fb, frame_answer env w = Some fb /\ fb_returns evs = [fb]) /\
  frees evs = (if is_null (data rgb) then [] else [data rgb]) /\
  (data rgb <> NULL -> heap w' !! data rgb = None) /\
  heap w' = heap w /\
  detect_calls evs = [] /\
  run (app_main_iteration env frame) w = Done (frame +i 1) /\
  forall n,
    app_main_loop env (S n) frame w = app_main_loop env n (frame +i 1) w'.
Proof.
  cbv zeta. intros Hin Hfail.
  assert (Hnext : forall a, run (app_main_iteration env frame) w = Done a ->
            forall n, app_main_loop env (S n) frame w =
                      app_main_loop env n a
                        (after (app_main_iteration env frame) w))
    by (intros a Ha n; by apply app_main_loop_step).
  turn_cases env frame w Hheap.
  all: read_events.
  2: destruct (is_null (data trgb)) eqn:Hnull; read_events.
  all: try (apply list_elem_of_singleton in Hin as ->).
  all: try congruence.
  - by apply elem_of_nil in Hin.
  - specialize (Hheap _ eq_refl). rewrite Hnull.
    split; [by eexists|]. repeat split; try done.
    + intros Hnn. rewrite Hheap. by apply Hfresh.
    + by apply Hnext.
  - specialize (Hheap _ eq_refl). rewrite Hnull.
    split; [by eexists|]. repeat split; try done.
    + intros Hnn. rewrite Hheap. by apply Hfresh.
    + by apply Hnext.
Qed.

Lemma decode_failure_is_dropped_witness :
  let env := demo_env demo_failed None None [] in
  let w' := after (app_main_iteration env 0) demo_world in
  let evs := new_events demo_world w' in
  demo_failed_rgb ∈ decoded_images evs /\
  decode_failed demo_failed_rgb = true /\
  (exists fb, frame_answer env demo_world = Some fb /\ fb_returns evs = [fb]) /\
  frees evs =
    (if is_null (data demo_failed_rgb) then [] else [data demo_failed_rgb]) /\
  (data demo_failed_rgb <> NULL -> heap w' !! data demo_failed_rgb = None) /\
  heap w' = heap demo_world /\
  detect_calls evs = [] /\
  run (app_main_iteration env 0) demo_world = Done (0 +i 1) /\
  forall n,
    app_main_loop env (S n) 0 demo_world = app_main_loop env n (0 +i 1) w'.
Proof.
  intros env w' evs.
  assert (H1 : demo_failed_rgb ∈ decoded_images evs)
    by (vm_compute; constructor).
  assert (H2 : decode_failed demo_failed_rgb = true) by reflexivity.
  split; [exact H1|]. split; [exact H2|].
  exact (decode_failure_is_dropped env 0 demo_world demo_failed_rgb H1 H2).
Defined.

(** C7. In every turn of the loop in which the Localizer returns no
    detection, the block of the image it was given is freed, the
    Classifier is not called, the delay of the turn is the backoff of
    300 ms, which is its last call, and the turn ends normally, so that
    the loop goes on with the next turn.  The heap is then as it was when
    the turn began. *)
Theorem empty_detection_is_dropped env frame w img :
  let w' := after (app_main_iteration env frame) w in
  let evs := new_events w w' in
  (img, []) ∈ detections evs ->
  data img ∈ frees evs /\
  heap w' !! data img = None /\
  heap w' = heap w /\
  recognize_calls evs = [] /\
  delays evs = [300] /\
  last evs = Some (EvDelay 300) /\
  run (app_main_iteration env frame) w = Done (frame +i 1) /\
  forall n,
    app_main_loop env (S n) frame w = app_main_loop env n (frame +i 1) w'.
Proof.
  cbv zeta. intros Hin.
  assert (Hnext : forall a, run (app_main_iteration env frame) w = Done a ->
            forall n, app_main_loop env (S n) frame w =
                      app_main_loop env n a
                        (after (app_main_iteration env frame) w))
    by (intros a Ha n; by apply app_main_loop_step).
  turn_cases env frame w Hheap.
  all: read_events.
  2: destruct (is_null (data trgb)) eqn:Hnull; read_events.
  all: try (by apply elem_of_nil in Hin).
  all: apply list_elem_of_singleton in Hin; try congruence.
  all: injection Hin as ->.
  all: specialize (Hheap _ eq_refl); cbn [dst_image data].
  all: repeat split; try done.
  all: try (by rewrite Hheap).
  all: try (by apply Hnext).
  all: set_solver.
Qed.

(** The turn of the example board when the Localizer finds nothing. *)
Lemma demo_turn_no_hand :
  exists rgb cevs,
    grant 9%N cevs /\
    new_events demo_world
      (after (app_main_iteration
                (demo_env demo_decoded (Some zeros) None []) 0) demo_world) =
    front demo_fb rgb ++ cevs ++
    [EvFree (data rgb); EvDetect (dst_image 9%N) []; no_hand_log (0 +i 1);
     EvFree 9%N; EvDelay 300].
Proof.
  assert (Hdims : picture_dims 2 1)
    by (unfold picture_dims, Int.INT_MAX; lia).
  assert (Hok : forall w',
            allocation_succeeds (demo_env demo_decoded (Some zeros) None []) w')
    by (intros w'; left; by exists zeros).
  destruct (turn_no_hand (demo_env demo_decoded (Some zeros) None []) 0
              demo_world demo_fb demo_pixels eq_refl eq_refl Hdims eq_refl Hok
              (fun _ _ => eq_refl))
    as (rgb & q & cevs & Ha & Hq & Hg & Hev).
  rewrite Ha in Hq. vm_compute in Hq. subst q.
  exists rgb, cevs. split; [exact Hg | exact Hev].
Qed.

Lemma empty_detection_is_dropped_witness :
  let env := demo_env demo_decoded (Some zeros) None [] in
  let w' := after (app_main_iteration env 0) demo_world in
  let evs := new_events demo_world w' in
  (dst_image 9%N, []) ∈ detections evs /\
  data (dst_image 9%N) ∈ frees evs /\
  heap w' !! data (dst_image 9%N) = None /\
  heap w' = heap demo_world /\
  recognize_calls evs = [] /\
  delays evs = [300] /\
  last evs = Some (EvDelay 300) /\
  run (app_main_iteration env 0) demo_world = Done (0 +i 1) /\
  forall n,
    app_main_loop env (S n) 0 demo_world = app_main_loop env n (0 +i 1) w'.
Proof.
  intros env w' evs.
  assert (H1 : (dst_image 9%N, []) ∈ detections evs).
  { destruct demo_turn_no_hand as (rgb & cevs & Hg & Hev).
    unfold evs, w', env. rewrite Hev. clear Hev.
    destruct Hg as [-> | ->].
    all: unfold detections, front, no_hand_log; rewrite !omap_app.
    all: cbn [omap list_omap app]; apply list_elem_of_here. }
  split; [exact H1|].
  exact (empty_detection_is_dropped env 0 demo_world (dst_image 9%N) H1).
Defined.

(** The turn of the example board when the Localizer finds a hand. *)
Lemma demo_turn_classified :
  exists rgb cevs dets cls,
    grant 9%N cevs /\
    new_events demo_world
      (after (app_main_iteration
                (demo_env demo_decoded (Some zeros) None [Detection 1]) 0)
         demo_world) =
    front demo_fb rgb ++ cevs ++
    [EvFree (data rgb); EvDetect (dst_image 9%N) dets;
     EvRecognize (dst_image 9%N) dets cls] ++
    map (gesture_log (0 +i 1)) cls ++ [EvFree 9%N; EvDelay 2000].
Proof.
  assert (Hdims : picture_dims 2 1)
    by (unfold picture_dims, Int.INT_MAX; lia).
  assert (Hok : forall w',
            allocation_succeeds
              (demo_env demo_decoded (Some zeros) None [Detection 1]) w')
    by (intros w'; left; by exists zeros).
  destruct (turn_classified
              (demo_env demo_decoded (Some zeros) None [Detection 1]) 0
              demo_world demo_fb demo_pixels eq_refl eq_refl Hdims eq_refl Hok)
    as (rgb & q & cevs & dets & cls & Ha & Hq & Hg & _ & Hev);
    [intros ? ?; discriminate|].
  rewrite Ha in Hq. vm_compute in Hq. subst q.
  exists rgb, cevs, dets, cls. split; [exact Hg | exact Hev].
Qed.

Lemma demo_no_hand_detected :
  (dst_image 9%N, []) ∈
  detections
    (new_events demo_world
       (after (app_main_iteration
                 (demo_env demo_decoded (Some zeros) None []) 0) demo_world)).
Proof.
  destruct demo_turn_no_hand as (rgb & cevs & Hg & Hev).
  rewrite Hev. clear Hev. destruct Hg as [-> | ->].
  all: unfold detections, front, no_hand_log; rewrite !omap_app.
  all: cbn [omap list_omap app]; apply list_elem_of_here.
Qed.

Lemma demo_hand_classified :
  recognize_calls
    (new_events demo_world
       (after (app_main_iteration
                 (demo_env demo_decoded (Some zeros) None [Detection 1]) 0)
          demo_world)) <> [].
Proof.
  destruct demo_turn_classified as (rgb & cevs & dets & cls & Hg & Hev).
  rewrite Hev. clear Hev. destruct Hg as [-> | ->].
  all: unfold recognize_calls, front; rewrite !omap_app.
  all: rewrite omap_gesture_log by done.
  all: cbn [omap list_omap app]; discriminate.
Qed.

(** C4, as amended.  The delay of a turn in which the Localizer found
    nothing is 300 ms, the delay of a turn in which the Classifier was
    called is 2000 ms: the empty-detection backoff is shorter than the
    steady-state delay. *)
Theorem backoff_shorter_than_steady env1 frame1 w1 env2 frame2 w2 img :
  let evs1 := new_events w1 (after (app_main_iteration env1 frame1) w1) in
  let evs2 := new_events w2 (after (app_main_iteration env2 frame2) w2) in
  (img, []) ∈ detections evs1 ->
  recognize_calls evs2 <> [] ->
  total_delay evs1 = 300 /\ total_delay evs2 = 2000 /\
  total_delay evs1 < total_delay evs2.
Proof.
  cbv zeta. intros Hin Hrec.
  assert (H1 : total_delay
                 (new_events w1 (after (app_main_iteration env1 frame1) w1))
               = 300).
  { clear Hrec. turn_cases env1 frame1 w1 Hheap.
    all: read_events.
    2: destruct (is_null (data trgb)); read_events.
    all: try (by apply elem_of_nil in Hin).
    all: apply list_elem_of_singleton in Hin; try congruence.
    all: injection Hin; intros; subst; try congruence; done. }
  assert (H2 : total_delay
                 (new_events w2 (after (app_main_iteration env2 frame2) w2))
               = 2000).
  { clear Hin H1. turn_cases env2 frame2 w2 Hheap.
    all: read_events.
    2: destruct (is_null (data trgb)); read_events.
    all: done. }
  rewrite H1, H2. lia.
Qed.

Lemma backoff_shorter_than_steady_witness :
  let env1 := demo_env demo_decoded (Some zeros) None [] in
  let env2 := demo_env demo_decoded (Some zeros) None [Detection 1] in
  let evs1 := new_events demo_world
                (after (app_main_iteration env1 0) demo_world) in
  let evs2 := new_events demo_world
                (after (app_main_iteration env2 0) demo_world) in
  (dst_image 9%N, []) ∈ detections evs1 /\
  recognize_calls evs2 <> [] /\
  total_delay evs1 = 300 /\ total_delay evs2 = 2000 /\
  total_delay evs1 < total_delay evs2.
Proof.
  intros env1 env2 evs1 evs2.
  split; [exact demo_no_hand_detected|].
  split; [exact demo_hand_classified|].
  exact (backoff_shorter_than_steady env1 0 demo_world env2 0 demo_world
           (dst_image 9%N) demo_no_hand_detected demo_hand_classified).
Defined.

(** C4, as the specification states it, fails: on the example board the
    turn without a hand delays 300 ms and the turn with a classified hand
    2000 ms. *)
Lemma backoff_longer_than_steady_counterexample :
  ~ backoff_longer_than_steady.
Proof.
  intros Hclaim.
  pose proof (Hclaim (demo_env demo_decoded (Some zeros) None []) 0 demo_world
                (demo_env demo_decoded (Some zeros) None [Detection 1]) 0
                demo_world (dst_image 9%N)
                demo_no_hand_detected demo_hand_classified) as Hgt.
  cbv zeta in Hgt.
  assert (H1 : total_delay
            (new_events demo_world
               (after (app_main_iteration
                         (demo_env demo_decoded (Some zeros) None []) 0)
                  demo_world)) = 300).
  { destruct demo_turn_no_hand as (rgb & cevs & Hg & Hev).
    rewrite Hev. destruct Hg as [-> | ->]; reflexivity. }
  assert (H2 : total_delay
            (new_events demo_world
               (after (app_main_iteration
                         (demo_env demo_decoded (Some zeros) None [Detection 1])
                         0) demo_world)) = 2000).
  { destruct demo_turn_classified as (rgb & cevs & dets & cls & Hg & Hev).
    rewrite Hev. unfold total_delay, delays, front.
    destruct Hg as [-> | ->]; rewrite !omap_app, omap_gesture_log by done;
      reflexivity. }
  rewrite H1, H2 in Hgt. lia.
Qed.

(** ** The allocation policy *)

Lemma crop_resize_224_events env src w :
  new_events w (after (crop_resize_224 env src) w) = alloc_events env w.
Proof.
  apply new_events_app.
  destruct (crop_resize_224_any env src w)
    as [[_ Hrun] | (_ & d & Hafter & _)].
  - unfold after. by rewrite Hrun.
  - by rewrite Hafter.
Qed.

Lemma caps_differ : FIRST_CAPS <> SECOND_CAPS.
Proof. discriminate. Qed.

(** C5. The preprocessor asks for its destination block first with the
    capabilities SPIRAM | 8BIT and, only when that request is refused,
    with 8BIT alone, never in the other order; a granted first request is
    the only one.  When both are refused it returns, without a stop, an
    image whose data pointer is null and leaves the heap as it was; and a
    turn of the loop in which the second request is refused calls neither
    the Localizer nor the Classifier, delays 100 ms as its last call and
    ends normally, with the heap as it was. *)
Theorem allocation_order env :
  (forall src w,
     let r := crop_resize_224 env src w in
     let calls := malloc_calls (new_events w (snd r)) in
     (exists p, p <> NULL /\
        calls = [(Z.lor MALLOC_CAP_SPIRAM MALLOC_CAP_8BIT, p)]) \/
     (exists p, p <> NULL /\
        calls = [(Z.lor MALLOC_CAP_SPIRAM MALLOC_CAP_8BIT, NULL);
                 (MALLOC_CAP_8BIT, p)]) \/
     (calls = [(Z.lor MALLOC_CAP_SPIRAM MALLOC_CAP_8BIT, NULL);
               (MALLOC_CAP_8BIT, NULL)] /\
      (exists dst, fst r = Done dst /\ data dst = NULL) /\
      heap (snd r) = heap w)) /\
  Z.lor MALLOC_CAP_SPIRAM MALLOC_CAP_8BIT <> MALLOC_CAP_8BIT /\
  (forall frame w,
     let w' := after (app_main_iteration env frame) w in
     let evs := new_events w w' in
     (MALLOC_CAP_8BIT, NULL) ∈ malloc_calls evs ->
     run (app_main_iteration env frame) w = Done (frame +i 1) /\
     detect_calls evs = [] /\ recognize_calls evs = [] /\
     delays evs = [100] /\ last evs = Some (EvDelay 100) /\
     heap w' = heap w).
Proof.
  split; [|split; [exact caps_differ|]].
  - intros src w. cbv zeta.
    fold (after (crop_resize_224 env src) w).
    rewrite crop_resize_224_events.
    fold FIRST_CAPS SECOND_CAPS. unfold alloc_events.
    destruct (first_answer env w) as [f|] eqn:Hf;
      [|destruct (second_answer env w) as [f|] eqn:Hs].
    + left. exists (fresh_ptr (heap w)).
      split; [apply fresh_ptr_not_null | reflexivity].
    + right. left. exists (fresh_ptr (heap w)).
      split; [apply fresh_ptr_not_null | reflexivity].
    + right. right. split; [reflexivity|].
      unfold after. rewrite (crop_run_refused env src w Hf Hs).
      cbn [fst snd heap].
      split; [by exists (dst_image NULL) | reflexivity].
  - intros frame w. cbv zeta. intros Hin.
    turn_cases env frame w Hheap.
    all: read_events.
    2: destruct (is_null (data trgb)); read_events.
    all: repeat (apply elem_of_cons in Hin as [Hin | Hin]).
    all: try (by apply elem_of_nil in Hin).
    all: try (unfold NULL in *; vm_compute in Hin; congruence).
    all: specialize (Hheap _ eq_refl); by repeat split.
Qed.

Lemma allocation_order_witness :
  let env := demo_env demo_decoded None None [] in
  let w' := after (app_main_iteration env 0) demo_world in
  let evs := new_events demo_world w' in
  (MALLOC_CAP_8BIT, NULL) ∈ malloc_calls evs /\
  run (app_main_iteration env 0) demo_world = Done (0 +i 1) /\
  detect_calls evs = [] /\ recognize_calls evs = [] /\
  delays evs = [100] /\ last evs = Some (EvDelay 100) /\
  heap w' = heap demo_world.
Proof.
  intros env w' evs.
  assert (H1 : (MALLOC_CAP_8BIT, NULL) ∈ malloc_calls evs)
    by (vm_compute; apply list_elem_of_further, list_elem_of_here).
  split; [exact H1|].
  exact (proj2 (proj2 (allocation_order env)) 0 demo_world H1).
Defined.

(** ** The marker of an allocation failure *)

(** C10. When both requests are refused the preprocessor returns an image
    of width 224, height 224 and type RGB888 whose data pointer is null,
    and these three fields are the same in every image it returns: the
    data pointer is null exactly when both requests were refused, so the
    failure shows in the pointer alone.  The test the loop applies to the
    decoder's result also looks at the dimensions (it fails an image with a
    live pointer and a width or height that is not positive), and would
    pass the preprocessor's marker but for its pointer.  After the
    preprocessor the loop looks at the data pointer only: with a null
    pointer it delays 100 ms and ends the turn, with any other pointer it
    goes on to the Localizer, whatever the width and the height are. *)
Theorem allocation_failure_marker env :
  (forall src w,
     both_refused env w ->
     crop_resize_224 env src w =
     (Done {| data := NULL; width := 224; height := 224;
              pix_type := DL_IMAGE_PIX_TYPE_RGB888 |},
      logged w refusal)) /\
  (forall src w dst w',
     crop_resize_224 env src w = (Done dst, w') ->
     width dst = 224 /\ height dst = 224 /\
     pix_type dst = DL_IMAGE_PIX_TYPE_RGB888 /\
     (data dst = NULL <-> both_refused env w)) /\
  (forall p W H pt,
     decode_failed {| data := p; width := W; height := H; pix_type := pt |}
     = true <-> p = NULL \/ W <= 0 \/ H <= 0) /\
  (forall frame img w,
     (data img = NULL ->
      dispatch_stage env frame img w = (Done tt, logged w [EvDelay 100])) /\
     (data img <> NULL ->
      dispatch_stage env frame img w = detect_stage env frame img w)).
Proof.
  split; [|split; [|split]].
  - intros src w Href. pose proof Href as [Hf Hs].
    rewrite (crop_run_refused env src w Hf Hs).
    by rewrite (alloc_events_refused _ _ Href).
  - intros src w dst w' Hrun.
    destruct (crop_resize_224_any env src w)
      as [[Href Hrun'] | (Hok & d & _ & Hres)].
    + rewrite Hrun in Hrun'. injection Hrun' as -> _.
      cbn [dst_image width height pix_type data].
      do 3 (split; [reflexivity|]). split; [by intros | reflexivity].
    + unfold run in Hres. rewrite Hrun in Hres. cbn [fst] in Hres.
      destruct Hres as [Hdst | [s Hs]]; [|discriminate].
      injection Hdst as ->.
      cbn [dst_image width height pix_type data].
      do 3 (split; [reflexivity|]). split.
      * intros Hn. by destruct (fresh_ptr_not_null (heap w)).
      * intros [Hf Hs]. destruct Hok as [[? Hok] | [? Hok]]; congruence.
  - intros p W H pt. unfold decode_failed, is_null. cbn [data width height].
    rewrite !orb_true_iff, N.eqb_eq, !Z.leb_le. tauto.
  - intros frame img w. split.
    + apply dispatch_stage_null.
    + apply dispatch_stage_not_null.
Qed.

Lemma allocation_failure_marker_witness :
  let env := demo_env demo_decoded None None [] in
  both_refused env demo_world /\
  crop_resize_224 env demo_src demo_world =
  (Done {| data := NULL; width := 224; height := 224;
           pix_type := DL_IMAGE_PIX_TYPE_RGB888 |},
   logged demo_world refusal).
Proof.
  intros env.
  assert (H1 : both_refused env demo_world) by (split; reflexivity).
  split; [exact H1|].
  exact (proj1 (allocation_failure_marker env) demo_src demo_world H1).
Defined.

Lemma frame_returned_exactly_once_witness :
  let env := demo_env demo_decoded None None [] in
  frame_answer env demo_world = Some demo_fb /\
  (forall frame,
     fb_returns
       (new_events demo_world (after (app_main_iteration env frame) demo_world))
     = [demo_fb]) /\
  (forall i,
     run (warm_up_step env i) demo_world = Done tt /\
     fb_returns (new_events demo_world (after (warm_up_step env i) demo_world))
     = [demo_fb]).
Proof.
  intros env.
  assert (H1 : frame_answer env demo_world = Some demo_fb) by reflexivity.
  split; [exact H1|].
  exact (frame_returned_exactly_once env demo_world demo_fb H1).
Defined.

(** ** The loop and the program as a whole *)

(** However many turns the loop makes, when it gets through them the heap
    is as it was: no turn leaves a block behind. *)
Lemma app_main_loop_keeps_heap env n :
  forall frame w a,
    run (app_main_loop env n frame) w = Done a ->
    heap (after (app_main_loop env n frame) w) = heap w.
Proof.
  induction n as [|n IH]; intros frame w a Hrun; [reflexivity|].
  destruct (app_main_iteration_exit env frame w) as [_ Hheap].
  unfold run, after in *. cbn [app_main_loop] in *. rewrite bind_run in *.
  destruct (app_main_iteration env frame w) as [[a1|s] w1];
    cbn [fst snd] in *; [|discriminate].
  rewrite (IH a1 w1 a Hrun). by apply (Hheap a1).
Qed.

(** A camera that does not start aborts the program before the first
    frame is asked for. *)
Lemma app_main_init_failure env n w :
  (forall w' config, camera_init_answer env w' config <> ESP_OK) ->
  run (app_main env n) w = Stop Abort /\
  exists config err,
    new_events w (after (app_main env n) w) =
    [EvLog LOG_INFO TAG "Init camera..." []; EvCameraInit config err].
Proof.
  intros Hbad.
  assert (Hrun : exists config err,
            app_main env n w =
            (Stop Abort,
             logged w [EvLog LOG_INFO TAG "Init camera..." [];
                       EvCameraInit config err])).
  { unfold app_main. rewrite bind_run. unfold ESP_LOGI at 1.
    rewrite emit_run, bind_run. unfold init_camera, esp_camera_init.
    set (w1 := logged w _). set (config := {| fb_count := 1 |}).
    exists config, (camera_init_answer env w1 config).
    fold (logged w1 [EvCameraInit config (camera_init_answer env w1 config)]).
    rewrite bind_run. unfold ESP_ERROR_CHECK.
    destruct (Z.eqb_spec (camera_init_answer env w1 config) ESP_OK) as [Heq|_];
      [by destruct (Hbad w1 config)|].
    unfold w1. by rewrite logged_logged. }
  destruct Hrun as (config & err & Hrun).
  unfold run, after. rewrite Hrun. split; [reflexivity|].
  exists config, err. by apply new_events_app.
Qed.

(** * Further properties of the preprocessor *)

(** ** The shape of the crop and of the sampling *)

(** X1. The crop square is centred: its side is the shorter side of the
    source, so it touches both edges in one direction (x0 = 0 or y0 = 0),
    and in the other direction the margin after it is the margin before it
    or one more. *)
Theorem crop_is_centred src :
  picture_dims (width src) (height src) ->
  crop_side src = Z.min (width src) (height src) /\
  (crop_x0 src = 0 \/ crop_y0 src = 0) /\
  (crop_x0 src <= width src - (crop_x0 src + crop_side src)
   <= crop_x0 src + 1) /\
  (crop_y0 src <= height src - (crop_y0 src + crop_side src)
   <= crop_y0 src + 1).
Proof.
  intros Hdims. pose proof (dims_bounds _ _ Hdims) as Hb.
  rewrite crop_x0_exact, crop_y0_exact, crop_side_min by done.
  unfold nn_x0, nn_y0, nn_crop in *.
  pose proof (Z.div_mod (width src - Z.min (width src) (height src)) 2
                ltac:(lia)).
  pose proof (Z.mod_pos_bound (width src - Z.min (width src) (height src)) 2
                ltac:(lia)).
  pose proof (Z.div_mod (height src - Z.min (width src) (height src)) 2
                ltac:(lia)).
  pose proof (Z.mod_pos_bound (height src - Z.min (width src) (height src)) 2
                ltac:(lia)).
  split; [reflexivity|]. split; [|lia].
  destruct (Z.le_ge_cases (width src) (height src)).
  - left. rewrite Z.min_l, Z.sub_diag by lia. reflexivity.
  - right. rewrite Z.min_r, Z.sub_diag by lia. reflexivity.
Qed.

Lemma crop_is_centred_witness :
  picture_dims (width landscape_src) (height landscape_src) /\
  crop_side landscape_src
  = Z.min (width landscape_src) (height landscape_src) /\
  (crop_x0 landscape_src = 0 \/ crop_y0 landscape_src = 0) /\
  (crop_x0 landscape_src
   <= width landscape_src - (crop_x0 landscape_src + crop_side landscape_src)
   <= crop_x0 landscape_src + 1) /\
  (crop_y0 landscape_src
   <= height landscape_src - (crop_y0 landscape_src + crop_side landscape_src)
   <= crop_y0 landscape_src + 1).
Proof.
  assert (H1 : picture_dims (width landscape_src) (height landscape_src))
    by (unfold picture_dims, Int.INT_MAX; cbn; lia).
  split; [exact H1|]. exact (crop_is_centred landscape_src H1).
Defined.

Lemma scaled_mono c t1 t2 :
  0 <= c -> t1 <= t2 -> (t1 * c) / 224 <= (t2 * c) / 224.
Proof. intros Hc Ht. apply Z.div_le_mono; nia. Qed.

Lemma scaled_strict c t1 t2 :
  224 <= c -> 0 <= t1 < t2 -> (t1 * c) / 224 < (t2 * c) / 224.
Proof.
  intros Hc Ht.
  assert ((t1 * c + 1 * 224) / 224 <= (t2 * c) / 224)
    by (apply Z.div_le_mono; nia).
  rewrite Z.div_add in H by lia. lia.
Qed.

(** X2. Sampling keeps the order of columns and of rows: a destination
    pixel further right (further down) never samples a source pixel
    further left (further up), and the first column and row sample the
    edge of the crop square. *)
Theorem sampling_keeps_order src t1 t2 :
  picture_dims (width src) (height src) ->
  0 <= t1 -> t1 <= t2 -> t2 < 224 ->
  sample_x src t1 <= sample_x src t2 /\
  sample_y src t1 <= sample_y src t2 /\
  sample_x src 0 = crop_x0 src /\
  sample_y src 0 = crop_y0 src.
Proof.
  intros Hdims H1 H12 H2. pose proof (dims_bounds _ _ Hdims) as Hb.
  rewrite !sample_x_exact, !sample_y_exact, crop_x0_exact, crop_y0_exact
    by (done || lia).
  unfold nn_sx, nn_sy.
  pose proof (scaled_mono (nn_crop (width src) (height src)) t1 t2
                ltac:(lia) H12).
  change (0 * nn_crop (width src) (height src)) with 0.
  change (0 / 224) with 0. lia.
Qed.

Lemma sampling_keeps_order_witness :
  picture_dims (width landscape_src) (height landscape_src) /\
  0 <= 10 /\ 10 <= 200 /\ 200 < 224 /\
  sample_x landscape_src 10 <= sample_x landscape_src 200 /\
  sample_y landscape_src 10 <= sample_y landscape_src 200 /\
  sample_x landscape_src 0 = crop_x0 landscape_src /\
  sample_y landscape_src 0 = crop_y0 landscape_src.
Proof.
  assert (H1 : picture_dims (width landscape_src) (height landscape_src))
    by (unfold picture_dims, Int.INT_MAX; cbn; lia).
  split; [exact H1|]. do 3 (split; [lia|]).
  exact (sampling_keeps_order landscape_src 10 200 H1
           ltac:(lia) ltac:(lia) ltac:(lia)).
Defined.

(** X3. When the crop square is at least 224 pixels wide (the picture is
    scaled down), two different destination columns sample two different
    source columns, and likewise for rows: no source pixel is used
    twice in a row or in a column. *)
Theorem downscale_samples_distinct src t1 t2 :
  picture_dims (width src) (height src) ->
  224 <= crop_side src ->
  0 <= t1 -> t1 < t2 -> t2 < 224 ->
  sample_x src t1 < sample_x src t2 /\ sample_y src t1 < sample_y src t2.
Proof.
  intros Hdims Hbig H1 H12 H2.
  rewrite !sample_x_exact, !sample_y_exact by (done || lia).
  rewrite crop_side_min in Hbig. unfold nn_sx, nn_sy.
  pose proof (scaled_strict (nn_crop (width src) (height src)) t1 t2
                Hbig ltac:(lia)).
  lia.
Qed.

Lemma downscale_samples_distinct_witness :
  picture_dims (width landscape_src) (height landscape_src) /\
  224 <= crop_side landscape_src /\
  0 <= 100 /\ 100 < 101 /\ 101 < 224 /\
  sample_x landscape_src 100 < sample_x landscape_src 101 /\
  sample_y landscape_src 100 < sample_y landscape_src 101.
Proof.
  assert (H1 : picture_dims (width landscape_src) (height landscape_src))
    by (unfold picture_dims, Int.INT_MAX; cbn; lia).
  assert (H2 : 224 <= crop_side landscape_src) by (vm_compute; discriminate).
  split; [exact H1|]. split; [exact H2|]. do 3 (split; [lia|]).
  exact (downscale_samples_distinct landscape_src 100 101 H1 H2
           ltac:(lia) ltac:(lia) ltac:(lia)).
Defined.

Lemma scaled_onto c k :
  1 <= c <= 224 -> 0 <= k < c ->
  exists t, 0 <= t < 224 /\ (t * c) / 224 = k.
Proof.
  intros Hc Hk. exists ((k * 224 + c - 1) / c).
  pose proof (Z.div_mod (k * 224 + c - 1) c ltac:(lia)) as Hdm.
  pose proof (Z.mod_pos_bound (k * 224 + c - 1) c ltac:(lia)) as Hmb.
  set (t := (k * 224 + c - 1) / c) in *.
  set (r := (k * 224 + c - 1) mod c) in *.
  assert (Ht0 : 0 <= t) by (apply Z.div_pos; nia).
  assert (Ht : t < 224) by nia.
  split; [lia|].
  symmetry. apply Z.div_unique with (r := t * c - k * 224); nia.
Qed.

(** X4. When the crop square is at most 224 pixels wide (the picture is
    scaled up), every column and every row of the crop square is sampled
    by some destination column or row: no source pixel of the square is
    left out. *)
Theorem upscale_covers_crop src k :
  picture_dims (width src) (height src) ->
  crop_side src <= 224 ->
  0 <= k -> k < crop_side src ->
  (exists x, 0 <= x < 224 /\ sample_x src x = crop_x0 src + k) /\
  (exists y, 0 <= y < 224 /\ sample_y src y = crop_y0 src + k).
Proof.
  intros Hdims Hsmall Hk0 Hk. pose proof (dims_bounds _ _ Hdims) as Hb.
  rewrite crop_side_min in Hsmall, Hk.
  destruct (scaled_onto (nn_crop (width src) (height src)) k
              ltac:(lia) ltac:(lia)) as (t & Ht & Hdiv).
  split; exists t; (split; [exact Ht|]).
  - rewrite sample_x_exact, crop_x0_exact by done. unfold nn_sx. lia.
  - rewrite sample_y_exact, crop_y0_exact by done. unfold nn_sy. lia.
Qed.

Lemma upscale_covers_crop_witness :
  picture_dims (width small_src) (height small_src) /\
  crop_side small_src <= 224 /\ 0 <= 59 /\ 59 < crop_side small_src /\
  (exists x, 0 <= x < 224 /\ sample_x small_src x = crop_x0 small_src + 59) /\
  (exists y, 0 <= y < 224 /\ sample_y small_src y = crop_y0 small_src + 59).
Proof.
  assert (H1 : picture_dims (width small_src) (height small_src))
    by (unfold picture_dims, Int.INT_MAX; cbn; lia).
  assert (H2 : crop_side small_src <= 224) by (vm_compute; discriminate).
  assert (H3 : 59 < crop_side small_src) by (vm_compute; reflexivity).
  split; [exact H1|]. split; [exact H2|]. split; [lia|]. split; [exact H3|].
  exact (upscale_covers_crop small_src 59 H1 H2 ltac:(lia) H3).
Defined.

(** X5. A picture whose shorter side is 224 pixels is cropped and not
    scaled: when the allocation succeeds, the pixel (x, y) of the
    destination is the pixel (x0 + x, y0 + y) of the source, with
    x0 = (width - 224) / 2 and y0 = (height - 224) / 2. *)
Theorem crop_resize_224_pure_crop env w src :
  rgb888_image w src ->
  Z.min (width src) (height src) = 224 ->
  allocation_succeeds env w ->
  exists dst w' sbytes dbytes,
    crop_resize_224 env src w = (Done dst, w') /\
    heap w !! data src = Some sbytes /\
    heap w' !! data dst = Some dbytes /\
    forall x y, 0 <= x < 224 -> 0 <= y < 224 ->
      is_Some (pixel dbytes 224 x y) /\
      pixel dbytes 224 x y =
      pixel sbytes (width src)
        ((width src - 224) / 2 + x) ((height src - 224) / 2 + y).
Proof.
  intros Himg Hmin Hok.
  destruct (rgb888_image_inv _ _ Himg) as (Hdims & Hpt & sbuf & Hsrc & Hslen).
  destruct (crop_resize_224_granted env src w sbuf Hdims Hsrc Hslen Hok)
    as (d & Hrun & Hd).
  eexists _, _, sbuf, d. split; [exact Hrun|]. split; [exact Hsrc|].
  cbn [dst_image data copying heap]. split; [apply lookup_insert_eq|].
  intros x y Hx Hy.
  destruct (copied_pixel sbuf (width src) (height src) d x y
              Hdims Hslen Hd Hx Hy) as [Hsome Heq].
  split; [exact Hsome|]. rewrite Heq.
  unfold nn_sx, nn_sy, nn_x0, nn_y0, nn_crop. rewrite Hmin.
  by rewrite !Z.div_mul by lia.
Qed.

Lemma crop_resize_224_pure_crop_witness :
  rgb888_image wide_world wide_src /\
  Z.min (width wide_src) (height wide_src) = 224 /\
  allocation_succeeds (demo_env demo_decoded (Some zeros) None []) wide_world /\
  exists dst w' sbytes dbytes,
    crop_resize_224 (demo_env demo_decoded (Some zeros) None []) wide_src
      wide_world = (Done dst, w') /\
    heap wide_world !! data wide_src = Some sbytes /\
    heap w' !! data dst = Some dbytes /\
    forall x y, 0 <= x < 224 -> 0 <= y < 224 ->
      is_Some (pixel dbytes 224 x y) /\
      pixel dbytes 224 x y =
      pixel sbytes (width wide_src)
        ((width wide_src - 224) / 2 + x) ((height wide_src - 224) / 2 + y).
Proof.
  assert (H1 : rgb888_image wide_world wide_src).
  { assert (Hlen : Z.of_nat (length wide_pixels) = 320 * 224 * 3)
      by (apply length_block_of; lia).
    repeat split; try (cbn; lia).
    exists wide_pixels. split; [reflexivity|]. rewrite Hlen.
    split; [reflexivity|]. unfold PTRDIFF_MAX, Int.INT_MAX. lia. }
  assert (H2 : Z.min (width wide_src) (height wide_src) = 224) by reflexivity.
  assert (H3 : allocation_succeeds
                 (demo_env demo_decoded (Some zeros) None []) wide_world).
  { left. exists zeros. reflexivity. }
  split; [exact H1|]. split; [exact H2|]. split; [exact H3|].
  exact (crop_resize_224_pure_crop _ _ _ H1 H2 H3).
Defined.

(** X6. Whatever its argument is and however it ends, the preprocessor
    leaves every block that was live as it was, the source included: it
    frees nothing and stores only to the block it allocated; and any block
    that is live afterwards and was not before is at the address the
    allocator gave. *)
Theorem crop_resize_224_keeps_other_blocks env src w :
  let w' := after (crop_resize_224 env src) w in
  (forall p blk, heap w !! p = Some blk -> heap w' !! p = Some blk) /\
  (forall p, is_Some (heap w' !! p) ->
     is_Some (heap w !! p) \/
     (p = fresh_ptr (heap w) /\ allocation_succeeds env w)).
Proof.
  cbv zeta.
  destruct (crop_resize_224_any env src w)
    as [[_ Hrun] | (Hok & d & Hafter & _)].
  - unfold after. rewrite Hrun. cbn [snd heap]. split; [done|]. by left.
  - rewrite Hafter. unfold copying. cbn [heap].
    pose proof (fresh_ptr_free (heap w)) as Hq. split.
    + intros p blk Hp. rewrite lookup_insert_ne by congruence. exact Hp.
    + intros p Hp.
      destruct (decide (p = fresh_ptr (heap w))) as [->|Hne]; [by right|].
      left. by rewrite lookup_insert_ne in Hp.
Qed.

Lemma crop_resize_224_keeps_other_blocks_witness :
  let env := demo_env demo_decoded None None [] in
  heap demo_world !! 7%N = Some demo_pixels /\
  heap (after (crop_resize_224 env demo_src) demo_world) !! 7%N
  = Some demo_pixels.
Proof.
  intros env.
  assert (H1 : heap demo_world !! 7%N = Some demo_pixels) by reflexivity.
  split; [exact H1|].
  exact (proj1 (crop_resize_224_keeps_other_blocks env demo_src demo_world)
           7%N demo_pixels H1).
Defined.

(** * Further properties of the loop *)

(** ** How traces grow *)

Lemma trace_new_events w w' evs :
  trace w' = trace w ++ evs -> trace w' = trace w ++ new_events w w'.
Proof. intros H. by rewrite (new_events_app _ _ _ H). Qed.

Lemma new_events_trans w w1 w2 a b :
  trace w1 = trace w ++ a -> trace w2 = trace w1 ++ b ->
  new_events w w2 = new_events w w1 ++ new_events w1 w2.
Proof.
  intros H1 H2.
  rewrite (new_events_app _ _ _ H1), (new_events_app _ _ _ H2).
  apply new_events_app. by rewrite H2, H1, app_assoc.
Qed.

Section Emits.

Variable Q : list event -> Prop.
Hypothesis Q_nil : Q [].
Hypothesis Q_app : forall a b, Q a -> Q b -> Q (a ++ b).

Lemma emits_ret {A} (a : A) : emits Q (mret a).
Proof. intros w. exists []. by rewrite app_nil_r. Qed.

Lemma emits_stop {A} s : emits Q (@stop_with A s).
Proof. intros w. exists []. by rewrite app_nil_r. Qed.

Lemma emits_bind {A B} (m : M A) (f : A -> M B) :
  emits Q m -> (forall a, emits Q (f a)) -> emits Q (m ≫= f).
Proof.
  intros Hm Hf w. destruct (Hm w) as (a & Ha & HQa).
  unfold after in *. rewrite bind_run.
  destruct (m w) as [[x|s] w1]; cbn [snd] in *.
  - destruct (Hf x w1) as (b & Hb & HQb). unfold after in Hb. exists (a ++ b).
    split; [by rewrite Hb, Ha, app_assoc | by apply Q_app].
  - by exists a.
Qed.

Lemma emits_for_loop (body : Z -> M unit) :
  (forall i, emits Q (body i)) -> forall n i, emits Q (for_loop n i body).
Proof.
  intros Hbody n. induction n as [|n IH]; intros i; cbn [for_loop].
  - apply emits_ret.
  - apply emits_bind; [apply Hbody | intros _; apply IH].
Qed.

Lemma emits_for_each {A} (body : A -> M unit) :
  (forall x, emits Q (body x)) -> forall xs, emits Q (for_each xs body).
Proof.
  intros Hbody xs. induction xs as [|x xs IH]; cbn [for_each].
  - apply emits_ret.
  - apply emits_bind; [apply Hbody | intros _; apply IH].
Qed.

End Emits.

Lemma emits_one {A} (Q : list event -> Prop) (m : M A) :
  (forall w, exists e, trace (after m w) = trace w ++ [e] /\ Q [e]) ->
  emits Q m.
Proof. intros H w. destruct (H w) as (e & He & HQ). by exists [e]. Qed.

(** Solves [emits (fun _ => True)] for a call that is not composed. *)
Ltac grows_call :=
  let w := fresh "w" in
  intros w; unfold after; cbv beta delta
    [emit esp_camera_fb_get esp_camera_fb_return sw_decode_jpeg
     heap_caps_malloc heap_caps_free hand_detect_run gesture_recognize
     esp_camera_init vTaskDelay_ms ESP_LOGE ESP_LOGW ESP_LOGI];
  cbv zeta;
  repeat match goal with
         | |- context [match ?x with _ => _ end] => destruct x
         end;
  cbn [snd heap trace];
  first [ eexists; split; [reflexivity | exact I]
        | exists []; split; [by rewrite app_nil_r | exact I] ].

Lemma grows_emit e : emits (fun _ => True) (emit e).
Proof. grows_call. Qed.

Lemma grows_fb_get env : emits (fun _ => True) (esp_camera_fb_get env).
Proof. grows_call. Qed.

Lemma grows_decode env jpeg pt :
  emits (fun _ => True) (sw_decode_jpeg env jpeg pt).
Proof. grows_call. Qed.

Lemma grows_free p : emits (fun _ => True) (heap_caps_free p).
Proof. grows_call. Qed.

Lemma grows_detect env img : emits (fun _ => True) (hand_detect_run env img).
Proof. grows_call. Qed.

Lemma grows_recognize env img dets :
  emits (fun _ => True) (gesture_recognize env img dets).
Proof. grows_call. Qed.

Lemma grows_camera_init env config :
  emits (fun _ => True) (esp_camera_init env config).
Proof. grows_call. Qed.

Lemma grows_crop env src : emits (fun _ => True) (crop_resize_224 env src).
Proof.
  intros w. exists (alloc_events env w). split; [|done].
  destruct (crop_resize_224_any env src w)
    as [[_ Hrun] | (_ & d & Hafter & _)].
  - unfold after. by rewrite Hrun.
  - by rewrite Hafter.
Qed.

(** Composes the lemmas above along the text of a computation. *)
Ltac grows :=
  repeat first
    [ apply grows_emit | apply grows_fb_get | apply grows_decode
    | apply grows_free | apply grows_detect | apply grows_recognize
    | apply grows_camera_init | apply grows_crop
    | apply emits_ret; done
    | apply emits_stop; done
    | apply emits_bind; [done | | intros ?]
    | apply emits_for_each; [done | done | intros ?]
    | apply emits_for_loop; [done | done | intros ?]
    | match goal with
      | |- emits _ (match ?x with _ => _ end) => destruct x
      | |- emits _ (if ?b then _ else _) => destruct b
      end ].

Lemma grows_iteration env frame :
  emits (fun _ => True) (app_main_iteration env frame).
Proof.
  unfold app_main_iteration, preprocess_stage, dispatch_stage, detect_stage,
    classify_stage, vTaskDelay_ms, ESP_LOGE, ESP_LOGW, ESP_LOGI,
    esp_camera_fb_return.
  grows.
Qed.

Lemma grows_warm_up_step env i : emits (fun _ => True) (warm_up_step env i).
Proof.
  unfold warm_up_step, vTaskDelay_ms, esp_camera_fb_return. grows.
Qed.

(** The trace after a turn is the trace before it followed by the calls of
    the turn. *)
Lemma app_main_iteration_trace env frame w :
  trace (after (app_main_iteration env frame) w) =
  trace w ++ new_events w (after (app_main_iteration env frame) w).
Proof.
  destruct (grows_iteration env frame w) as (evs & Hevs & _).
  by apply (trace_new_events _ _ evs).
Qed.

(** ** What a turn obtains, frees, delays and reports *)

Lemma decode_ok_not_null rgb :
  decode_failed rgb = false -> is_null (data rgb) = false.
Proof.
  unfold decode_failed. intros H.
  apply orb_false_iff in H as [H _]. by apply orb_false_iff in H as [H _].
Qed.

Lemma reports_gesture_log frame cls :
  reports (map (gesture_log frame) cls) =
  map (fun res => [ArgInt frame; ArgStr (cat_name res); ArgFloat (score res)])
    cls.
Proof.
  unfold reports. induction cls as [|res cls IH]; [done|].
  cbn [map omap list_omap gesture_log]. f_equal. exact IH.
Qed.

(** Unfolds the further projections of a trace over the calls of an exit
    path. *)
Ltac read_more :=
  unfold turn_delay, obtained, acquisitions, recognitions in *;
  read_events;
  repeat match goal with
         | H : decode_failed ?r = false |- _ =>
             progress rewrite (decode_ok_not_null r H) in *
         end;
  repeat match goal with
         | H : ?q <> NULL |- _ => progress rewrite (is_null_false q H) in *
         end;
  change (is_null NULL) with true in *;
  cbn match in *; cbn [app] in *.

(** X7. Every block a turn obtains, from the decoder or from the
    allocator, it frees in that turn, in the order obtained, and it frees
    nothing else: when the turn ends, the list of frees is the list of the
    non-null pointers obtained, none of them was live before the turn, and
    the heap is as it was before the turn. *)
Theorem turn_frees_what_it_obtains env frame w a :
  let w' := after (app_main_iteration env frame) w in
  let evs := new_events w w' in
  run (app_main_iteration env frame) w = Done a ->
  frees evs = obtained evs /\
  (forall p, p ∈ frees evs -> heap w !! p = None) /\
  heap w' = heap w.
Proof.
  cbv zeta. intros Hrun.
  turn_cases env frame w Hheap; try discriminate.
  2: destruct (is_null (data trgb)) eqn:Hnull.
  all: specialize (Hheap _ eq_refl).
  all: read_more.
  all: try rewrite Hnull.
  all: split; [reflexivity|].
  all: split; [|exact Hheap].
  all: intros p Hp; repeat (apply elem_of_cons in Hp as [-> | Hp]); try done.
  all: try (by apply elem_of_nil in Hp).
  apply Hfresh. intros Heq. rewrite Heq in Hnull. discriminate.
Qed.

Lemma turn_frees_what_it_obtains_witness :
  let env := demo_env demo_decoded None None [] in
  let w' := after (app_main_iteration env 0) demo_world in
  let evs := new_events demo_world w' in
  run (app_main_iteration env 0) demo_world = Done 1 /\
  frees evs = obtained evs /\
  (forall p, p ∈ frees evs -> heap demo_world !! p = None) /\
  heap w' = heap demo_world.
Proof.
  intros env w' evs.
  assert (H1 : run (app_main_iteration env 0) demo_world = Done 1)
    by (vm_compute; reflexivity).
  split; [exact H1|].
  exact (turn_frees_what_it_obtains env 0 demo_world 1 H1).
Defined.

(** X8. A turn that ends delays once at most, and how long follows from
    how far it got: 100 ms when the camera had no frame or the allocator
    no memory, 300 ms when the Localizer found nothing, 2000 ms after a
    classification, and not at all after a failed decode. *)
Theorem turn_delays_by_exit env frame w a :
  let evs := new_events w (after (app_main_iteration env frame) w) in
  run (app_main_iteration env frame) w = Done a ->
  total_delay evs = turn_delay evs /\
  (delays evs = [] \/ delays evs = [total_delay evs]) /\
  (forall rgb, rgb ∈ decoded_images evs -> decode_failed rgb = true ->
     delays evs = []).
Proof.
  cbv zeta. intros Hrun.
  turn_cases env frame w Hheap; try discriminate.
  2: destruct (is_null (data trgb)) eqn:Hnull.
  all: read_more.
  all: try rewrite Hdec.
  all: try (destruct tdets; [done|]).
  all: split; [reflexivity|].
  all: split; [first [by left | by right]|].
  all: intros rgb Hin Hfail.
  all: try (by apply elem_of_nil in Hin).
  all: apply list_elem_of_singleton in Hin; congruence.
Qed.

Lemma turn_delays_by_exit_witness :
  let env := demo_env demo_failed None None [] in
  let evs := new_events demo_world
               (after (app_main_iteration env 0) demo_world) in
  run (app_main_iteration env 0) demo_world = Done 1 /\
  total_delay evs = turn_delay evs /\
  (delays evs = [] \/ delays evs = [total_delay evs]) /\
  (forall rgb, rgb ∈ decoded_images evs -> decode_failed rgb = true ->
     delays evs = []).
Proof.
  intros env evs.
  assert (H1 : run (app_main_iteration env 0) demo_world = Done 1)
    by (vm_compute; reflexivity).
  split; [exact H1|].
  exact (turn_delays_by_exit env 0 demo_world 1 H1).
Defined.

(** X9. The Localizer is called at most once in a turn, and only with an
    image of 224 by 224 pixels of type RGB888 whose data pointer is not
    null and names a block that was not live before the turn, that the
    turn itself obtained and that the turn frees. *)
Theorem localizer_gets_normalized_image env frame w img dets :
  let evs := new_events w (after (app_main_iteration env frame) w) in
  (img, dets) ∈ detections evs ->
  detections evs = [(img, dets)] /\
  width img = 224 /\ height img = 224 /\
  pix_type img = DL_IMAGE_PIX_TYPE_RGB888 /\
  data img <> NULL /\ heap w !! data img = None /\
  data img ∈ obtained evs /\ data img ∈ frees evs.
Proof.
  cbv zeta. intros Hin.
  turn_cases env frame w Hheap.
  2: destruct (is_null (data trgb)) eqn:Hnull.
  all: read_more.
  all: try (by apply elem_of_nil in Hin).
  all: apply list_elem_of_singleton in Hin.
  all: injection Hin as Himg Hd; subst img dets.
  all: cbn [dst_image data width height pix_type].
  all: do 6 (split; [done|]).
  all: split.
  all: repeat first [apply list_elem_of_here | apply list_elem_of_further].
Qed.

Lemma localizer_gets_normalized_image_witness :
  let env := demo_env demo_decoded (Some zeros) None [] in
  let img := dst_image 9%N in
  let evs := new_events demo_world
               (after (app_main_iteration env 0) demo_world) in
  detections evs = [(img, [])] /\
  width img = 224 /\ height img = 224 /\
  pix_type img = DL_IMAGE_PIX_TYPE_RGB888 /\
  data img <> NULL /\ heap demo_world !! data img = None /\
  data img ∈ obtained evs /\ data img ∈ frees evs.
Proof.
  exact (localizer_gets_normalized_image
           (demo_env demo_decoded (Some zeros) None []) 0 demo_world
           (dst_image 9%N) [] demo_no_hand_detected).
Defined.

(** ** The classified turn *)

(** The stages after the Localizer found [d :: ds], with the answer of the
    Classifier named. *)
Lemma detect_stage_classify env frame img w blk d ds :
  data img <> NULL -> heap w !! data img = Some blk ->
  detect_answer env w img = d :: ds ->
  let cls := recognize_answer env (logged w [EvDetect img (d :: ds)]) img
               (d :: ds) in
  detect_stage env frame img w =
  (Done tt,
   released w (data img)
     ([EvDetect img (d :: ds); EvRecognize img (d :: ds) cls] ++
      map (gesture_log frame) cls ++ [EvFree (data img); EvDelay 2000])).
Proof.
  intros Hp Hl Hdets cls.
  unfold detect_stage, hand_detect_run. rewrite bind_run, Hdets.
  fold (logged w [EvDetect img (d :: ds)]).
  unfold classify_stage, gesture_recognize. rewrite bind_run. fold cls.
  fold (logged (logged w [EvDetect img (d :: ds)])
          [EvRecognize img (d :: ds) cls]).
  rewrite logged_logged, bind_run, for_each_log, logged_logged, bind_run.
  rewrite (heap_caps_free_live _ _ blk Hp) by exact Hl.
  unfold vTaskDelay_ms.
  rewrite emit_run, released_logged, logged_released.
  by rewrite <- !app_assoc.
Qed.

(** X10. A turn in which the Classifier is called is a complete turn: the
    Classifier is called once, with the image the Localizer was given and
    with the detections the Localizer returned, which are not empty; the
    turn reports one line per result of the Classifier, in order, each
    with the incremented frame counter, the name and the score of the
    result; it delays 2000 ms once and ends with the incremented counter.
    The counter is below [INT_MAX], so that [frame++] is defined. *)
Theorem classified_turn_reports_each_result env frame w img dets cls :
  let evs := new_events w (after (app_main_iteration env frame) w) in
  Int.INT_MIN <= frame < Int.INT_MAX ->
  (img, dets, cls) ∈ recognitions evs ->
  recognitions evs = [(img, dets, cls)] /\
  detections evs = [(img, dets)] /\ dets <> [] /\
  reports evs =
    map (fun res =>
           [ArgInt (frame + 1); ArgStr (cat_name res); ArgFloat (score res)])
        cls /\
  delays evs = [2000] /\
  run (app_main_iteration env frame) w = Done (frame + 1).
Proof.
  cbv zeta. intros Hframe Hin.
  rewrite <- (add_exact frame 1) by (unfold Int.in_range; lia).
  turn_cases env frame w Hheap.
  2: destruct (is_null (data trgb)) eqn:Hnull.
  all: read_more.
  all: try (by apply elem_of_nil in Hin).
  all: apply list_elem_of_singleton in Hin.
  all: injection Hin as Himg Hd Hc; subst img dets cls.
  all: do 3 (split; [done|]).
  all: split; [|by split].
  all: unfold reports; cbn [omap list_omap]; rewrite omap_app.
  all: cbn [omap list_omap]; rewrite app_nil_r; apply reports_gesture_log.
Qed.

Lemma demo_recognition :
  (dst_image 9%N, [Detection 1],
   [{| cat_name := "five"; score := 1063675494 |}]) ∈
  recognitions
    (new_events demo_world
       (after (app_main_iteration
                 (demo_env demo_decoded (Some zeros) None [Detection 1]) 0)
          demo_world)).
Proof.
  set (env := demo_env demo_decoded (Some zeros) None [Detection 1]).
  assert (Hdims : picture_dims 2 1)
    by (unfold picture_dims, Int.INT_MAX; lia).
  assert (Hok : forall w', allocation_succeeds env w')
    by (intros w'; left; by exists zeros).
  destruct (turn_reaches_localizer env 0 demo_world demo_fb demo_pixels
              eq_refl eq_refl Hdims eq_refl Hok)
    as (rgb & q & cevs & w5 & d & Ha & Hq & Hg & Hqn & Htr & Hl & Hrun).
  rewrite Ha in Hq. vm_compute in Hq. subst q.
  pose proof (detect_stage_classify env (0 +i 1) (dst_image 9%N) w5 d
                (Detection 1) [] Hqn Hl eq_refl) as Hst.
  cbv zeta in Hst.
  assert (Hev : new_events demo_world (after (app_main_iteration env 0)
                                         demo_world) =
                front demo_fb rgb ++ cevs ++
                [EvFree (data rgb); EvDetect (dst_image 9%N) [Detection 1];
                 EvRecognize (dst_image 9%N) [Detection 1]
                   [{| cat_name := "five"; score := 1063675494 |}]] ++
                map (gesture_log (0 +i 1))
                  [{| cat_name := "five"; score := 1063675494 |}] ++
                [EvFree 9%N; EvDelay 2000]).
  { unfold after. rewrite Hrun, bind_run, Hst.
    cbn [mret M_ret snd]. apply new_events_app.
    cbn [released trace dst_image data]. rewrite Htr.
    by rewrite <- !app_assoc. }
  rewrite Hev. clear Hev Hst Hrun. destruct Hg as [-> | ->].
  all: unfold recognitions, front; rewrite !omap_app.
  all: cbn [omap list_omap app map gesture_log]; apply list_elem_of_here.
Qed.

Lemma classified_turn_reports_each_result_witness :
  let env := demo_env demo_decoded (Some zeros) None [Detection 1] in
  let img := dst_image 9%N in
  let cls := [{| cat_name := "five"; score := 1063675494 |}] in
  let evs := new_events demo_world
               (after (app_main_iteration env 0) demo_world) in
  recognitions evs = [(img, [Detection 1], cls)] /\
  detections evs = [(img, [Detection 1])] /\ [Detection 1] <> [] /\
  reports evs =
    map (fun res =>
           [ArgInt (0 + 1); ArgStr (cat_name res); ArgFloat (score res)])
        cls /\
  delays evs = [2000] /\
  run (app_main_iteration env 0) demo_world = Done (0 + 1).
Proof.
  apply (classified_turn_reports_each_result
           (demo_env demo_decoded (Some zeros) None [Detection 1]) 0
           demo_world (dst_image 9%N) [Detection 1]
           [{| cat_name := "five"; score := 1063675494 |}]).
  - unfold Int.INT_MIN, Int.INT_MAX. lia.
  - exact demo_recognition.
Defined.

(** ** Turns that cannot go wrong *)

(** Once the picture is in the heap, the stages after the decode end. *)
Lemma preprocess_stage_done env frame rgb w :
  rgb888_image w rgb -> data rgb <> NULL ->
  run (preprocess_stage env frame rgb) w = Done tt.
Proof.
  intros Himg Hnn.
  destruct (crop_resize_224_any env rgb w) as [[_ Hrun] | [Hok _]].
  - destruct (rgb888_image_inv _ _ Himg) as (_ & _ & px & Hl & _).
    unfold run, preprocess_stage. rewrite (bind_done _ _ _ _ _ Hrun).
    rewrite bind_run, (heap_caps_free_live _ _ px Hnn) by exact Hl.
    by rewrite dispatch_stage_null.
  - unfold run.
    destruct (preprocess_stage_granted env frame rgb w Himg Hnn Hok)
      as (d & ->).
    set (q := fresh_ptr (heap w)). set (w5 := mk_world _ _).
    assert (Hqn : data (dst_image q) <> NULL) by apply fresh_ptr_not_null.
    assert (Hl : heap w5 !! data (dst_image q) = Some d).
    { destruct (rgb888_image_inv _ _ Himg) as (_ & _ & px & Hpx & _).
      unfold w5. cbn [heap dst_image data]. rewrite lookup_delete_ne.
      - apply lookup_insert_eq.
      - apply (fresh_ptr_other _ _ px Hpx). }
    destruct (detect_answer env w5 (dst_image q)) as [|x xs] eqn:Hdets.
    + by rewrite (detect_stage_empty env frame _ w5 d Hqn Hl Hdets).
    + by rewrite (detect_stage_classify env frame _ w5 d x xs Hqn Hl Hdets).
Qed.

(** With a decoder that keeps its contract, a turn ends. *)
Lemma iteration_done env frame w :
  decoder_keeps_contract env ->
  run (app_main_iteration env frame) w = Done (frame +i 1).
Proof.
  intros Hdec.
  destruct (frame_answer env w) as [fb|] eqn:Hfb.
  2: { unfold run, app_main_iteration, esp_camera_fb_get.
       by rewrite bind_run, Hfb. }
  destruct (iteration_front env frame w fb Hfb)
    as (rgb & w3 & _ & HW & HH & HP & Hheap & Hrun).
  unfold run. rewrite Hrun.
  destruct (decode_failed rgb) eqn:Hfail.
  - unfold ESP_LOGE. rewrite bind_run, emit_run, bind_run.
    destruct (is_null (data rgb)) eqn:Hnull; cbn [negb]; [reflexivity|].
    assert (Hnn : data rgb <> NULL)
      by (intros Heq; rewrite Heq in Hnull; discriminate).
    destruct (dec_pixels _) as [px|]; [|by destruct Hheap].
    destruct Hheap as [_ Hh].
    rewrite (heap_caps_free_live _ _ px Hnn); [reflexivity|].
    cbn [logged heap]. rewrite Hh. apply lookup_insert_eq.
  - pose proof (decode_ok_not_null _ Hfail) as Hnull.
    assert (Hnn : data rgb <> NULL)
      by (intros Heq; rewrite Heq in Hnull; discriminate).
    unfold decode_failed in Hfail. rewrite Hnull in Hfail.
    apply orb_false_iff in Hfail as [Hw Hh]. cbn [orb] in Hw.
    apply Z.leb_gt in Hw, Hh.
    destruct (dec_pixels _) as [px|] eqn:Hpx; [|by destruct Hheap].
    destruct Hheap as [_ Hh3].
    destruct (Hdec _ _ _ _ Hpx) as [Hlen Hobj]; [lia | lia |].
    rewrite <- HW, <- HH in Hlen.
    assert (Himg : rgb888_image w3 rgb).
    { split; [lia|]. split; [lia|]. split; [exact HP|].
      exists px. split; [|by split].
      rewrite Hh3. apply lookup_insert_eq. }
    rewrite bind_run.
    pose proof (preprocess_stage_done env (frame +i 1) rgb w3 Himg Hnn)
      as Hpre.
    unfold run in Hpre.
    destruct (preprocess_stage env (frame +i 1) rgb w3) as [o w4].
    cbn [fst] in Hpre. by rewrite Hpre.
Qed.

(** X11. With a decoder that keeps its contract and a counter below
    [INT_MAX], a turn of the loop cannot go wrong: whatever the camera, the
    allocator, the Localizer and the Classifier answer, the turn ends, with
    the counter incremented and the heap as it was before the turn. *)
Theorem turn_ends env frame w :
  decoder_keeps_contract env ->
  Int.INT_MIN <= frame < Int.INT_MAX ->
  run (app_main_iteration env frame) w = Done (frame + 1) /\
  heap (after (app_main_iteration env frame) w) = heap w.
Proof.
  intros Hdec Hframe.
  pose proof (iteration_done env frame w Hdec) as Hrun.
  rewrite <- (add_exact frame 1) by (unfold Int.in_range; lia).
  split; [exact Hrun|].
  destruct (app_main_iteration_exit env frame w) as [_ Hheap].
  exact (Hheap _ Hrun).
Qed.

Lemma demo_decoder_keeps_contract first second dets :
  decoder_keeps_contract (demo_env demo_decoded first second dets).
Proof.
  intros w jpeg pt px dec Hpx _ _. cbn in Hpx. injection Hpx as <-.
  unfold PTRDIFF_MAX, Int.INT_MAX. cbn. lia.
Qed.

Lemma turn_ends_witness :
  let env := demo_env demo_decoded (Some zeros) None [Detection 1] in
  run (app_main_iteration env 0) demo_world = Done (0 + 1) /\
  heap (after (app_main_iteration env 0) demo_world) = heap demo_world.
Proof.
  apply (turn_ends (demo_env demo_decoded (Some zeros) None [Detection 1]) 0
           demo_world).
  - apply demo_decoder_keeps_contract.
  - unfold Int.INT_MIN, Int.INT_MAX. lia.
Defined.

(** ** The warm-up *)

Lemma warm_up_step_run env i w :
  warm_up_step env i w =
  (Done tt, logged w (warm_up_calls (frame_answer env w))).
Proof.
  unfold warm_up_step, esp_camera_fb_get, warm_up_calls.
  rewrite !bind_run. cbv zeta.
  fold (logged w [EvFbGet (frame_answer env w)]).
  destruct (frame_answer env w) as [fb|].
  - unfold esp_camera_fb_return, vTaskDelay_ms.
    by rewrite !emit_run, !logged_logged.
  - unfold vTaskDelay_ms. cbn [mret M_ret].
    by rewrite emit_run, logged_logged.
Qed.

Lemma frames_in_order_app held a b :
  frames_in_order held a -> frames_in_order None b ->
  frames_in_order held (a ++ b).
Proof.
  revert held. induction a as [|e a IH]; intros held Ha Hb.
  - cbn in Ha. by subst held.
  - destruct e; cbn [frames_in_order app] in *;
      try (apply IH; [exact Ha | exact Hb]).
    all: destruct Ha as [Hh Ha]; split; [exact Hh|];
      apply IH; [exact Ha | exact Hb].
Qed.

Lemma frames_in_order_warm_up_calls r : frames_in_order None (warm_up_calls r).
Proof. destruct r as [fb|]; cbn; tauto. Qed.

(** The warm-up loop of [n] steps. *)
Lemma warm_up_loop env n :
  forall i w, exists evs,
    for_loop n i (warm_up_step env) w = (Done tt, logged w evs) /\
    length (acquisitions evs) = n /\
    fb_returns evs = omap id (acquisitions evs) /\
    delays evs = replicate n 50 /\
    obtained evs = [] /\ detections evs = [] /\
    frames_in_order None evs.
Proof.
  induction n as [|n IH]; intros i w.
  - exists []. split; [|by repeat split].
    cbn [for_loop mret M_ret]. unfold logged. rewrite app_nil_r. by destruct w.
  - cbn [for_loop]. rewrite bind_run, warm_up_step_run.
    set (r := frame_answer env w).
    destruct (IH (i +i 1) (logged w (warm_up_calls r)))
      as (evs & Hrun & Hacq & Hret & Hdel & Hobt & Hdet & Hord).
    exists (warm_up_calls r ++ evs). rewrite Hrun, logged_logged.
    split; [reflexivity|].
    unfold acquisitions, fb_returns, delays, obtained, detections in *.
    rewrite !omap_app, Hret, Hdel, Hobt, Hdet.
    split; [|split; [|split; [|split; [|split]]]].
    + rewrite length_app, Hacq. by destruct r.
    + by destruct r.
    + by destruct r.
    + by destruct r.
    + by destruct r.
    + apply frames_in_order_app; [apply frames_in_order_warm_up_calls | done].
Qed.


(** ** The frame buffer over the whole program *)

Lemma frames_in_order_closed a b :
  frames_in_order None a -> frames_in_order None b ->
  frames_in_order None (a ++ b).
Proof. apply frames_in_order_app. Qed.

Lemma frames_in_order_gesture_log frame cls :
  frames_in_order None (map (gesture_log frame) cls).
Proof. induction cls as [|res cls IH]; [reflexivity | exact IH]. Qed.

Lemma iteration_frames_in_order env frame :
  emits (frames_in_order None) (app_main_iteration env frame).
Proof.
  intros w. exists (new_events w (after (app_main_iteration env frame) w)).
  split; [apply app_main_iteration_trace|].
  turn_cases env frame w Hheap.
  2: destruct (is_null (data trgb)).
  all: unfold front, refusal, no_hand_log; cbn [app frames_in_order].
  all: repeat split; eauto.
  all: apply frames_in_order_closed;
    [apply frames_in_order_gesture_log | reflexivity].
Qed.

Lemma warm_up_frames_in_order env i :
  emits (frames_in_order None) (warm_up_step env i).
Proof.
  intros w. exists (warm_up_calls (frame_answer env w)).
  unfold after. rewrite warm_up_step_run.
  split; [reflexivity | apply frames_in_order_warm_up_calls].
Qed.

Lemma emit_frames_in_order e :
  frames_in_order None [e] -> emits (frames_in_order None) (emit e).
Proof. intros He. apply emits_one. intros w. by exists e. Qed.

Lemma app_main_loop_frames_in_order env n :
  forall frame, emits (frames_in_order None) (app_main_loop env n frame).
Proof.
  induction n as [|n IH]; intros frame; cbn [app_main_loop].
  - by apply emits_ret.
  - apply emits_bind; [exact frames_in_order_closed | |intros a; apply IH].
    apply iteration_frames_in_order.
Qed.

(** X13. Over the whole program, however far it runs and however it
    stops, the frame buffer is used in order: the camera is asked for a
    frame only when the program holds none, the decoder is given the
    buffer of the frame the program holds, a frame is handed back only
    while it is held, and at the end of every turn none is held. *)
Theorem app_main_frames_in_order env n w :
  frames_in_order None (new_events w (after (app_main env n) w)).
Proof.
  assert (H : emits (frames_in_order None) (app_main env n)).
  { unfold app_main, ESP_LOGI, init_camera, ESP_ERROR_CHECK, for_int.
    repeat first
      [ apply app_main_loop_frames_in_order
      | apply emit_frames_in_order; reflexivity
      | apply emits_for_loop;
          [reflexivity | exact frames_in_order_closed
          | apply warm_up_frames_in_order]
      | apply emits_bind; [exact frames_in_order_closed | | intros ?] ].
    - apply emits_one. intros w0. eexists. split; reflexivity.
    - destruct (_ =? _); [by apply emits_ret | by apply emits_stop]. }
  destruct (H w) as (evs & Htr & Hq).
  by rewrite (new_events_app _ _ _ Htr).
Qed.

(** ** The program from its start *)

(** Every turn asks the camera for a frame once. *)
Lemma turn_acquires_once env frame w :
  acquisitions (new_events w (after (app_main_iteration env frame) w)) =
  [frame_answer env w].
Proof.
  turn_cases env frame w Hheap.
  2: destruct (is_null (data trgb)).
  all: read_more; reflexivity.
Qed.

Lemma app_main_loop_ends env n :
  decoder_keeps_contract env ->
  forall frame w,
    0 <= frame -> frame + Z.of_nat n <= Int.INT_MAX ->
    exists turns,
      run (app_main_loop env n frame) w = Done (frame + Z.of_nat n) /\
      heap (after (app_main_loop env n frame) w) = heap w /\
      trace (after (app_main_loop env n frame) w) = trace w ++ turns /\
      length (acquisitions turns) = n.
Proof.
  intros Hdec. induction n as [|n IH]; intros frame w H0 Hmax.
  - exists []. cbn [app_main_loop]. unfold run, after. cbn.
    rewrite Z.add_0_r, app_nil_r. by repeat split.
  - pose proof (iteration_done env frame w Hdec) as Hrun.
    destruct (app_main_iteration_exit env frame w) as [_ Hheap].
    specialize (Hheap _ Hrun).
    assert (Hf : frame +i 1 = frame + 1).
    { apply add_exact. unfold Int.in_range, Int.INT_MIN, Int.INT_MAX in *.
      lia. }
    rewrite Hf in Hrun.
    destruct (IH (frame + 1) (after (app_main_iteration env frame) w))
      as (turns & Hr & Hh & Ht & Hl); [lia | lia |].
    exists (new_events w (after (app_main_iteration env frame) w) ++ turns).
    unfold run, after in *.
    rewrite (app_main_loop_step env n frame w _ Hrun). unfold after.
    rewrite Hr, Hh, Ht, Hheap.
    split; [f_equal; lia|]. split; [reflexivity|]. split.
    + pose proof (app_main_iteration_trace env frame w) as Htr.
      unfold after in Htr. by rewrite Htr, <- app_assoc.
    + unfold acquisitions in *. rewrite omap_app, length_app, Hl.
      pose proof (turn_acquires_once env frame w) as Hacq.
      unfold acquisitions, after in Hacq. by rewrite Hacq.
Qed.

(** The program up to its loop, with a camera that starts. *)
Lemma app_main_start env n w :
  (forall w' config, camera_init_answer env w' config = ESP_OK) ->
  exists config warm,
    pixel_format config = PIXFORMAT_JPEG /\
    frame_size config = FRAMESIZE_240X240 /\ fb_count config = 1 /\
    length (acquisitions warm) = 5%nat /\ obtained warm = [] /\
    app_main env n w =
    app_main_loop env n 0
      (logged w
         ([EvLog LOG_INFO TAG "Init camera..." [];
           EvCameraInit config ESP_OK;
           EvLog LOG_INFO TAG "Camera ready" []] ++ warm ++
          [EvNewHandDetect;
           EvNewHandGestureRecognizer MOBILENETV2_0_5_S8_V1])).
Proof.
  intros Hok.
  unfold app_main. rewrite bind_run. unfold ESP_LOGI at 1.
  rewrite emit_run, bind_run. unfold init_camera, esp_camera_init.
  set (w1 := logged w _). set (config := {| fb_count := 1 |}).
  rewrite (Hok w1 config).
  fold (logged w1 [EvCameraInit config ESP_OK]).
  rewrite bind_run. unfold ESP_ERROR_CHECK.
  change (ESP_OK =? ESP_OK) with true. cbn match. cbn [mret M_ret].
  rewrite bind_run. unfold ESP_LOGI. rewrite emit_run, bind_run.
  unfold for_int.
  destruct (warm_up_loop env (Z.to_nat (5 - 0)) 0
              (logged (logged w1 [EvCameraInit config ESP_OK])
                 [EvLog LOG_INFO TAG "Camera ready" []]))
    as (warm & Hrun & Hacq & _ & _ & Hobt & _).
  rewrite Hrun, bind_run, emit_run, bind_run, emit_run.
  exists config, warm.
  do 3 (split; [reflexivity|]). split; [exact Hacq|]. split; [exact Hobt|].
  unfold w1. rewrite !logged_logged. cbn [app]. reflexivity.
Qed.

(** X14. With a camera that starts and a decoder that keeps its contract,
    the program cannot go wrong: it reaches the end of its [n]-th turn for
    every [n] up to [INT_MAX], with the frame counter at [n] and the heap
    as it was at the start.  Its calls are, in this order: the start of the
    camera, for JPEG frames of 240 by 240 pixels with one frame buffer;
    the warm-up with its five requests for a frame; the construction of
    the Localizer and of the Classifier, the latter as
    MOBILENETV2_0_5_S8_V1; then the turns, one request for a frame each. *)
Theorem app_main_runs env n w :
  decoder_keeps_contract env ->
  (forall w' config, camera_init_answer env w' config = ESP_OK) ->
  Z.of_nat n <= Int.INT_MAX ->
  run (app_main env n) w = Done (Z.of_nat n) /\
  heap (after (app_main env n) w) = heap w /\
  exists config warm turns,
    new_events w (after (app_main env n) w) =
    [EvLog LOG_INFO TAG "Init camera..." [];
     EvCameraInit config ESP_OK;
     EvLog LOG_INFO TAG "Camera ready" []] ++ warm ++
    [EvNewHandDetect; EvNewHandGestureRecognizer MOBILENETV2_0_5_S8_V1] ++
    turns /\
    pixel_format config = PIXFORMAT_JPEG /\
    frame_size config = FRAMESIZE_240X240 /\ fb_count config = 1 /\
    length (acquisitions warm) = 5%nat /\ obtained warm = [] /\
    length (acquisitions turns) = n.
Proof.
  intros Hdec Hok Hn.
  destruct (app_main_start env n w Hok)
    as (config & warm & Hpf & Hfs & Hfb & Hacq & Hobt & Hrun).
  set (w0 := logged w _) in Hrun.
  destruct (app_main_loop_ends env n Hdec 0 w0)
    as (turns & Hr & Hh & Ht & Hl); [lia | lia |].
  unfold run, after in *. rewrite Hrun, Hr, Hh.
  split; [reflexivity|]. split; [reflexivity|].
  exists config, warm, turns.
  split; [|by repeat split].
  apply new_events_app. rewrite Ht. unfold w0. cbn [logged trace].
  by rewrite <- !app_assoc.
Qed.

Lemma app_main_runs_witness :
  let env := demo_env demo_decoded None None [] in
  run (app_main env 3) demo_world = Done (Z.of_nat 3) /\
  heap (after (app_main env 3) demo_world) = heap demo_world /\
  exists config warm turns,
    new_events demo_world (after (app_main env 3) demo_world) =
    [EvLog LOG_INFO TAG "Init camera..." [];
     EvCameraInit config ESP_OK;
     EvLog LOG_INFO TAG "Camera ready" []] ++ warm ++
    [EvNewHandDetect; EvNewHandGestureRecognizer MOBILENETV2_0_5_S8_V1] ++
    turns /\
    pixel_format config = PIXFORMAT_JPEG /\
    frame_size config = FRAMESIZE_240X240 /\ fb_count config = 1 /\
    length (acquisitions warm) = 5%nat /\ obtained warm = [] /\
    length (acquisitions turns) = 3%nat.
Proof.
  apply (app_main_runs (demo_env demo_decoded None None []) 3 demo_world).
  - apply demo_decoder_keeps_contract.
  - intros w' config. reflexivity.
  - unfold Int.INT_MAX. lia.
Defined.

(** X15. With a camera that does not start, the program stops at the
    check of the result of [init_camera], whatever [n]: it has logged its
    first line and called the driver once, and nothing else; no frame was
    asked for, no block obtained, no delay made, neither model built, and
    the heap is as it was. *)
Theorem camera_failure_stops_before_first_frame env n w :
  (forall w' config, camera_init_answer env w' config <> ESP_OK) ->
  let evs := new_events w (after (app_main env n) w) in
  run (app_main env n) w = Stop Abort /\
  heap (after (app_main env n) w) = heap w /\
  acquisitions evs = [] /\ obtained evs = [] /\ delays evs = [] /\
  exists config err,
    err <> ESP_OK /\
    evs = [EvLog LOG_INFO TAG "Init camera..." []; EvCameraInit config err].
Proof.
  intros Hbad.
  assert (Hrun : exists config err,
            err <> ESP_OK /\
            app_main env n w =
            (Stop Abort,
             logged w [EvLog LOG_INFO TAG "Init camera..." [];
                       EvCameraInit config err])).
  { unfold app_main. rewrite bind_run. unfold ESP_LOGI at 1.
    rewrite emit_run, bind_run. unfold init_camera, esp_camera_init.
    set (w1 := logged w _). set (config := {| fb_count := 1 |}).
    exists config, (camera_init_answer env w1 config).
    split; [apply Hbad|].
    fold (logged w1 [EvCameraInit config (camera_init_answer env w1 config)]).
    rewrite bind_run. unfold ESP_ERROR_CHECK.
    destruct (Z.eqb_spec (camera_init_answer env w1 config) ESP_OK) as [Heq|_];
      [by destruct (Hbad w1 config)|].
    unfold w1. by rewrite logged_logged. }
  destruct Hrun as (config & err & Herr & Hrun).
  cbv zeta. unfold run, after. rewrite Hrun. cbn [fst snd].
  rewrite (new_events_app w (logged w _) _ eq_refl).
  do 5 (split; [reflexivity|]).
  by exists config, err.
Qed.

Lemma camera_failure_stops_before_first_frame_witness :
  let env := board_env (-1) (Some demo_fb) demo_decoded None None [] in
  let evs := new_events demo_world (after (app_main env 2) demo_world) in
  run (app_main env 2) demo_world = Stop Abort /\
  heap (after (app_main env 2) demo_world) = heap demo_world /\
  acquisitions evs = [] /\ obtained evs = [] /\ delays evs = [] /\
  exists config err,
    err <> ESP_OK /\
    evs = [EvLog LOG_INFO TAG "Init camera..." []; EvCameraInit config err].
Proof.
  apply (camera_failure_stops_before_first_frame
           (board_env (-1) (Some demo_fb) demo_decoded None None []) 2
           demo_world).
  intros w' config. cbn. unfold ESP_OK. lia.
Defined.

(** ** What the Localizer is given *)



(** ** A turn without a frame *)


